(** * cs_mastery_ai: the lecture-to-notes pipeline of [app.py]

    A shallow embedding of [app.py] and the properties of its text
    normaliser, transcript extractor, document exporter and page handler.

    Python strings are sequences of Unicode code points, and the regular
    expressions of [clean_text] work on code points, so a string is a list
    of code points here and a string literal of the source is brought in
    with [lit]. *)

From Stdlib Require Import String Ascii.
From Stdlib Require Import List NArith Arith Bool Lia.
Import ListNotations.

Set Implicit Arguments.

(** ** Strings *)

Definition char := N.
Definition str := list char.

Definition lit (s : string) : str :=
  List.map N_of_ascii (list_ascii_of_string s).

Definition NL : char := 10%N.
Definition STAR : char := 42%N.

(** The emphasis marker, two asterisks. *)
Definition MARK : str := [STAR; STAR].

Definition is_nl (c : char) : bool := N.eqb c NL.
Definition is_star (c : char) : bool := N.eqb c STAR.

(** Membership in the class [\x00-\x7F]. *)
Definition is_ascii (c : char) : bool := N.leb c 127.

(** Truth value of a string: [if s:] holds for a non-empty string. *)
Definition truthy (s : str) : bool :=
  match s with [] => false | _ :: _ => true end.

Fixpoint str_eqb (a b : str) : bool :=
  match a, b with
  | [], [] => true
  | x :: a', y :: b' => N.eqb x y && str_eqb a' b'
  | _, _ => false
  end.

(** [s.startswith(p)] *)
Fixpoint startswith (p s : str) : bool :=
  match p, s with
  | [], _ => true
  | x :: p', y :: s' => N.eqb x y && startswith p' s'
  | _ :: _, [] => false
  end.

(** [needle in hay] *)
Fixpoint str_in (needle hay : str) : bool :=
  startswith needle hay ||
  match hay with
  | [] => false
  | _ :: hay' => str_in needle hay'
  end.

(** [sep.join(items)] *)
Fixpoint str_join (sep : str) (items : list str) : str :=
  match items with
  | [] => []
  | [x] => x
  | x :: rest => x ++ sep ++ str_join sep rest
  end.

(** [s.split(sep)] for a non-empty separator: the pieces between the
    occurrences of [sep], found from left to right without overlap. [skip]
    counts the characters of a separator still to be passed over and [cur]
    is the piece being read. *)
Fixpoint split_go (sep : str) (skip : nat) (cur : str) (s : str) : list str :=
  match s with
  | [] => [cur]
  | c :: s' =>
      match skip with
      | S k => split_go sep k cur s'
      | O =>
          if startswith sep s
          then cur :: split_go sep (length sep - 1) [] s'
          else split_go sep 0 (cur ++ [c]) s'
      end
  end.

Definition str_split (sep : str) (s : str) : list str := split_go sep 0 [] s.

(** [items[-1]] of a list that [split] returned (never empty). *)
Definition last_item (items : list str) : str := List.last items [].

(** ** Regular-expression substitution

    [re.sub(pattern, repl, text)] scans [text] from left to right. Where
    the pattern matches, the replacement is written and the scan goes on
    after the match; elsewhere the character is copied. A pattern is given
    by its matcher at the head of the remaining text: the replacement and
    the text left after the match. None of the three patterns of
    [clean_text] matches the empty string. *)

Definition matcher := str -> option (str * str).

Fixpoint re_sub_fuel (m : matcher) (fuel : nat) (text : str) : str :=
  match fuel with
  | O => text
  | S fuel' =>
      match text with
      | [] => []
      | c :: text' =>
          match m text with
          | Some (repl, rest) => repl ++ re_sub_fuel m fuel' rest
          | None => c :: re_sub_fuel m fuel' text'
          end
      end
  end.

Definition re_sub (m : matcher) (text : str) : str :=
  re_sub_fuel m (length text) text.

(** [(.*?)\*\*] after the opening marker: the shortest run of characters
    other than newline that is followed by two asterisks. Gives the run (the
    group [\1]) and the text after the closing marker. *)
Fixpoint find_close (s : str) : option (str * str) :=
  match s with
  | [] => None
  | c :: s' =>
      if startswith MARK s then Some ([], skipn 2 s)
      else if is_nl c then None
      else match find_close s' with
           | Some (inner, rest) => Some (c :: inner, rest)
           | None => None
           end
  end.

(** [r"\*\*(.*?)\*\*"] replaced by [r"\1"]. *)
Definition bold_match : matcher := fun text =>
  if startswith MARK text then find_close (skipn 2 text) else None.

(** The greedy run [[^\x00-\x7F]+]. *)
Fixpoint skip_non_ascii (s : str) : str :=
  match s with
  | c :: s' => if is_ascii c then s else skip_non_ascii s'
  | [] => []
  end.

(** [r"[^\x00-\x7F]+"] replaced by the empty string. *)
Definition non_ascii_match : matcher := fun text =>
  match text with
  | c :: s => if is_ascii c then None else Some ([], skip_non_ascii s)
  | [] => None
  end.

(** The greedy run of newlines. *)
Fixpoint skip_nl (s : str) : str :=
  match s with
  | c :: s' => if is_nl c then skip_nl s' else s
  | [] => []
  end.

(** [r"\n{2,}"] replaced by one newline. *)
Definition newlines_match : matcher := fun text =>
  if startswith [NL; NL] text then Some ([NL], skip_nl (skipn 2 text)) else None.

(** [clean_text], lines 13-18. *)
Definition clean_text (text : str) : str :=
  let text := re_sub bold_match text in
  let text := re_sub non_ascii_match text in
  let text := re_sub newlines_match text in
  text.


(** ** Effects

    The program talks to a caption service, to a language-model service, to
    the page it renders and to the file system. A computation gives the
    events it caused, in order, and either a value or the exception that
    ended it. *)

(** An instance of [Exception], the class that line 68 catches. *)
Inductive exn := Exception (message : str).

(** [str(e)] *)
Definition str_of_exn (e : exn) : str :=
  match e with Exception message => message end.

Inductive result (A : Type) :=
| Ok (a : A)
| Raise (e : exn).
Arguments Ok {A} a.
Arguments Raise {A} e.

(** [FPDF]: the font in effect and the layout calls made so far. Each text
    call records the font it was made under. *)
Record font := Font { family : str; style : str; size : N }.

Inductive pdf_op :=
| AddPage
| Cell (f : option font) (w h : N) (txt : str) (ln : bool) (align : str)
| Ln (h : N)
| MultiCell (f : option font) (w h : N) (txt : str).

Record FPDF := MkFPDF {
  auto_page_break : option (bool * N);  (* [None]: the library's default *)
  cur_font : option font;
  ops : list pdf_op
}.

(** What a run does to the page and to the world outside. [CaptionRequest],
    [LLMRequest] and [FileWrite] stand for the calls of the caption service,
    of the language model and of [pdf.output]; what a call gives back is its
    result, not part of the event. *)
Inductive event :=
| StTitle (body : str)
| StSubheader (body : str)
| StSelectbox (label : str) (options : list str)
| StTextInput (label : str)
| StImage (url : str)
| StButton (label : str)
| StSuccess (body : str)
| StMarkdown (body : str)
| StWrite (body : str)
| StError (body : str)
| StDownloadButton (label data_file file_name mime : str)
| CaptionRequest (video_id : str)
| LLMRequest (model prompt : str)
| FileWrite (name : str) (doc : FPDF).

Definition M (A : Type) : Type := (list event * result A)%type.

Definition ret {A} (a : A) : M A := ([], Ok a).

Definition bind {A B} (m : M A) (k : A -> M B) : M B :=
  match m with
  | (t, Ok a) => let (t', r) := k a in (t ++ t', r)
  | (t, Raise e) => (t, Raise e)
  end.

(** [try: body  except Exception as e: handler] *)
Definition try_except {A} (body : M A) (handler : exn -> M A) : M A :=
  match body with
  | (t, Raise e) => let (t', r) := handler e in (t ++ t', r)
  | (t, Ok a) => (t, Ok a)
  end.

Definition emit (e : event) : M unit := ([e], Ok tt).

Definition trace {A} (m : M A) : list event := fst m.
Definition outcome {A} (m : M A) : result A := snd m.

Notation "x <- m ;; k" := (bind m (fun x => k))
  (at level 61, m at next level, right associativity).
Notation "m ;; k" := (bind m (fun _ => k))
  (at level 61, right associativity).

(** ** The program *)

(** One entry of a caption track. The timing fields are never read. *)
Record fragment (timing : Type) := Fragment {
  text : str;
  start : timing;
  duration : timing
}.

(** [str.isspace]: the characters that [strip()] removes. *)
Definition is_space (c : char) : bool :=
  ((9 <=? c) && (c <=? 13) || (28 <=? c) && (c <=? 32)
   || (c =? 133) || (c =? 160) || (c =? 5760)
   || (8192 <=? c) && (c <=? 8202)
   || (c =? 8232) || (c =? 8233) || (c =? 8239) || (c =? 8287)
   || (c =? 12288))%N.

Fixpoint lstrip (s : str) : str :=
  match s with
  | c :: s' => if is_space c then lstrip s' else s
  | [] => []
  end.

Definition rstrip (s : str) : str := rev (lstrip (rev s)).

(** [s.strip()] *)
Definition strip (s : str) : str := rstrip (lstrip s).

Definition BULLET : char := 8226%N.
Definition DOT : char := 46%N.

Section Model.

(** The caption service, keyed by video identifier. *)
Variable timing : Type.
Variable get_transcript : str -> result (list (fragment timing)).

(** The language-model service: model name and prompt to completion. *)
Variable generate_content : str -> str -> result str.

(** The class [\d] of the regular-expression engine (the decimal digits
    of the Unicode database). *)
Variable decimal_digit : char -> bool.

(** [pdf.output(name, "F")] of the fpdf library on the file system: it
    encodes the document and writes the file, or raises (text that the
    encoding of the core fonts does not have, a name that cannot be
    written to). *)
Variable pdf_output : str -> FPDF -> result unit.

(** [open(name, "rb")] on the file system. Reading leaves no event of its
    own: the handle it gives reaches the page in the download button. *)
Variable open_rb : str -> result unit.

Definition YouTubeTranscriptApi_get_transcript (video_id : str)
  : M (list (fragment timing)) :=
  ([CaptionRequest video_id], get_transcript video_id).

Definition GenerativeModel_generate_content (model prompt : str) : M str :=
  ([LLMRequest model prompt], generate_content model prompt).

Definition notes_prompt (subject : str) : str :=
  str_join [NL]
    [ [];
      lit "        Title: Structured Study Notes on " ++ subject;
      lit "        ";
      lit "        As an AI assistant, your task is to generate **structured and detailed notes** from the transcript of a YouTube video. ";
      [];
      lit "        The notes should be **well-formatted** and include:";
      lit "        - **Main topics & key concepts** (as section headings).";
      lit "        - **Bullet points or numbered lists** for explanations.";
      lit "        - **Examples, formulas, or real-world applications** (if mentioned in the video).";
      lit "        - **Concise explanations** that improve readability.";
      [];
      lit "        Here is the transcript of the video. Please extract and format the information into **structured and detailed notes**.";
      lit "    " ].

(** [generate_notes], lines 20-39. *)
Definition generate_notes (transcript_text subject : str) : M str :=
  let prompt := notes_prompt subject in
  response <- GenerativeModel_generate_content (lit "gemini-pro")
                (prompt ++ transcript_text) ;;
  ret (clean_text response).

Definition questions_prompt (subject : str) : str :=
  str_join [NL]
    [ [];
      lit "        Title: Placement Aptitude Questions for " ++ subject;
      lit "        ";
      lit "        As an AI assistant, generate **5-7 placement-level aptitude questions** commonly asked in technical interviews related to " ++ subject ++ lit ". ";
      lit "        Ensure the questions cover:";
      lit "        - **Conceptual understanding**";
      lit "        - **Problem-solving scenarios**";
      lit "        - **Real-world applications**";
      lit "        - **Multiple-choice or open-ended questions**";
      [];
      lit "        Format the questions properly with numbering.";
      lit "    " ].

(** [generate_aptitude_questions], lines 41-59. *)
Definition generate_aptitude_questions (subject : str) : M str :=
  let prompt := questions_prompt subject in
  response <- GenerativeModel_generate_content (lit "gemini-pro") prompt ;;
  ret (clean_text response).

(** [extract_transcript], lines 61-69. *)
Definition extract_transcript (youtube_url : str) : M str :=
  try_except
    (let video_id := last_item (str_split (lit "v=") youtube_url) in
     transcript <- YouTubeTranscriptApi_get_transcript video_id ;;
     let transcript_text :=
       str_join (lit " ") (map (fun entry => text entry) transcript) in
     ret transcript_text)
    (fun e => ret (lit "Error fetching transcript: " ++ str_of_exn e)).

(** The calls on the [FPDF] object. *)
Definition FPDF_new : FPDF := MkFPDF None None [].

Definition set_auto_page_break (pdf : FPDF) (auto : bool) (margin : N) : FPDF :=
  MkFPDF (Some (auto, margin)) (cur_font pdf) (ops pdf).

Definition add_page (pdf : FPDF) : FPDF :=
  MkFPDF (auto_page_break pdf) (cur_font pdf) (ops pdf ++ [AddPage]).

Definition set_font (pdf : FPDF) (family style : str) (size : N) : FPDF :=
  MkFPDF (auto_page_break pdf) (Some (Font family style size)) (ops pdf).

Definition cell (pdf : FPDF) (w h : N) (txt : str) (ln : bool) (align : str)
  : FPDF :=
  MkFPDF (auto_page_break pdf) (cur_font pdf)
         (ops pdf ++ [Cell (cur_font pdf) w h txt ln align]).

Definition ln (pdf : FPDF) (h : N) : FPDF :=
  MkFPDF (auto_page_break pdf) (cur_font pdf) (ops pdf ++ [Ln h]).

Definition multi_cell (pdf : FPDF) (w h : N) (txt : str) : FPDF :=
  MkFPDF (auto_page_break pdf) (cur_font pdf)
         (ops pdf ++ [MultiCell (cur_font pdf) w h txt]).

Definition output (pdf : FPDF) (name : str) : M unit :=
  ([FileWrite name pdf], pdf_output name pdf).

(** [open(name, "rb")]: the handle stands for the file of that name. *)
Definition open_file (name : str) : M str :=
  ([], match open_rb name with Ok _ => Ok name | Raise e => Raise e end).

(** [\d*\.] at the head of [s]. *)
Fixpoint digits_then_dot (s : str) : bool :=
  match s with
  | c :: s' => (c =? DOT)%N || decimal_digit c && digits_then_dot s'
  | [] => false
  end.

(** [re.match(r"^\d+\.", line)] *)
Definition re_match_numbered (line : str) : bool :=
  match line with
  | c :: s' => decimal_digit c && digits_then_dot s'
  | [] => false
  end.

(** Body of the loop of lines 89-93. *)
Definition notes_line (pdf : FPDF) (line : str) : FPDF :=
  if truthy (strip line) then
    let pdf :=
      if startswith (lit "-") line || startswith (lit "*") line
         || startswith [BULLET] line
      then cell pdf 10 0 [] false []
      else pdf in
    multi_cell pdf 0 7 line
  else pdf.

(** Body of the loop of lines 104-108. *)
Definition questions_line (pdf : FPDF) (line : str) : FPDF :=
  if truthy (strip line) then
    let pdf := if re_match_numbered line then ln pdf 3 else pdf in
    multi_cell pdf 0 7 line
  else pdf.

(** [save_as_pdf], lines 71-113. *)
Definition save_as_pdf (notes questions subject : str) : M str :=
  let pdf := FPDF_new in
  let pdf := set_auto_page_break pdf true 15 in
  let pdf := add_page pdf in
  let pdf := set_font pdf (lit "Arial") (lit "B") 16 in
  let pdf := cell pdf 200 10 (lit "Study Notes on " ++ subject) true (lit "C") in
  let pdf := ln pdf 10 in
  let pdf := set_font pdf (lit "Arial") (lit "B") 14 in
  let pdf := cell pdf 200 10 (lit "Detailed Notes") true [] in
  let pdf := ln pdf 5 in
  let pdf := set_font pdf (lit "Arial") [] 12 in
  let pdf := fold_left notes_line (str_split [NL] notes) pdf in
  let pdf := ln pdf 10 in
  let pdf := set_font pdf (lit "Arial") (lit "B") 14 in
  let pdf := cell pdf 200 10 (lit "Placement Aptitude Questions") true [] in
  let pdf := ln pdf 5 in
  let pdf := set_font pdf (lit "Arial") [] 12 in
  let pdf := fold_left questions_line (str_split [NL] questions) pdf in
  let pdf_filename := subject ++ lit "_study_notes.pdf" in
  output pdf pdf_filename ;;
  ret pdf_filename.

Definition subjects : list str :=
  [ lit "Database Management Systems (DBMS)";
    lit "Operating Systems (OS)";
    lit "Object-Oriented Programming (OOPS)";
    lit "Computer Networks (CN)" ].

Definition failure_message : str :=
  [9888; 65039]%N
  ++ lit " Failed to extract transcript. Please check the video link.".

(** The branch of [main] under the button, lines 135-161. *)
Definition on_generate (subject youtube_link : str) : M unit :=
  transcript_text <- extract_transcript youtube_link ;;
  if truthy transcript_text && negb (str_in (lit "Error") transcript_text)
  then
    emit (StSuccess ([9989%N] ++ lit " Transcript extracted successfully!")) ;;
    detailed_notes <- generate_notes transcript_text subject ;;
    emit (StMarkdown (lit "## " ++ [128218%N] ++ lit " Detailed Notes:")) ;;
    emit (StWrite detailed_notes) ;;
    aptitude_questions <- generate_aptitude_questions subject ;;
    emit (StMarkdown (lit "## " ++ [127919%N]
                      ++ lit " Possible Placement Aptitude Questions:")) ;;
    emit (StWrite aptitude_questions) ;;
    pdf_filename <- save_as_pdf detailed_notes aptitude_questions subject ;;
    file <- open_file pdf_filename ;;
    emit (StDownloadButton ([128229%N] ++ lit " Download Notes as PDF")
            file pdf_filename (lit "application/pdf"))
  else
    emit (StError failure_message).

(** [main], lines 115-161. The values of the widgets are the arguments:
    the subject chosen in the select box, the text of the link field and
    whether the button was pressed. *)
Definition main (subject youtube_link : str) (pressed : bool) : M unit :=
  emit (StTitle ([127891%N] ++ lit " CS Mastery Hub " ++ [8211%N]
                 ++ lit " YouTube Video to Notes Converter")) ;;
  emit (StSubheader
    (lit "Extract key learnings from YouTube lectures on DBMS, OS, OOPS, and CN!")) ;;
  emit (StSelectbox (lit "Select Core CS Subject:") subjects) ;;
  emit (StTextInput (lit "Enter YouTube Video Link:")) ;;
  (if truthy youtube_link then
     let video_id := last_item (str_split (lit "v=") youtube_link) in
     emit (StImage (lit "http://img.youtube.com/vi/" ++ video_id ++ lit "/0.jpg"))
   else ret tt) ;;
  emit (StButton ([128214%N] ++ lit " Generate Detailed Notes")) ;;
  if pressed then on_generate subject youtube_link else ret tt.

End Model.

(** ** Vocabulary of the properties *)

(** [needle] occurs in [hay]. *)
Definition has_substring (needle hay : str) : Prop :=
  exists pre post, hay = pre ++ needle ++ post.

Definition head_star (s : str) : bool :=
  match s with c :: _ => is_star c | [] => false end.

Definition head_nl (s : str) : bool :=
  match s with c :: _ => is_nl c | [] => false end.

(** A span wrapped in emphasis markers starts somewhere in [s]: the bold
    pattern matches at some position. *)
Fixpoint has_span (s : str) : bool :=
  match s with
  | [] => false
  | _ :: s' =>
      match bold_match s with Some _ => true | None => false end
      || has_span s'
  end.

(** What the third substitution computes, by structural recursion: of a run
    of newlines only the last one stays. *)
Fixpoint collapse (s : str) : str :=
  match s with
  | [] => []
  | c :: s' => if is_nl c && head_nl s' then collapse s' else c :: collapse s'
  end.

(** The first substitution of [clean_text]. *)
Abbreviation unbold := (re_sub bold_match).

(** A matcher that consumes at least one character. *)
Definition shrinks (m : matcher) : Prop :=
  forall s repl rest, m s = Some (repl, rest) -> length rest < length s.

Definition no_nl (s : str) : bool := forallb (fun c => negb (is_nl c)) s.
Definition all_ascii (s : str) : bool := forallb is_ascii s.

(** [s] has no emphasis marker in it and does not end with an asterisk, so
    that no marker starts inside [s] whatever follows it. *)
Definition marker_free (s : str) : bool := negb (str_in MARK (s ++ [STAR])).

(** The identifier that lines 64 and 131 take from a locator. *)
Definition video_id_of (youtube_url : str) : str :=
  last_item (str_split (lit "v=") youtube_url).

(** The layout calls that one line of the notes body adds, under font [f]. *)
Definition notes_line_ops (f : option font) (line : str) : list pdf_op :=
  if truthy (strip line) then
    (if startswith (lit "-") line || startswith (lit "*") line
        || startswith [BULLET] line
     then [Cell f 10 0 [] false []] else [])
    ++ [MultiCell f 0 7 line]
  else [].

(** The layout calls that one line of the questions body adds. *)
Definition questions_line_ops (decimal_digit : char -> bool)
           (f : option font) (line : str) : list pdf_op :=
  if truthy (strip line) then
    (if re_match_numbered decimal_digit line then [Ln 3] else [])
    ++ [MultiCell f 0 7 line]
  else [].

(** The deletion of the characters above 127 leaves a wrapped span: after
    the first two substitutions the bold pattern matches somewhere. *)
Definition joins_markers (x : str) : bool :=
  has_span (filter is_ascii (unbold x)).



(** The transcript passes the test of line 137. *)
Definition usable (t : str) : Prop :=
  t <> [] /\ ~ has_substring (lit "Error") t.

(** The spec's words for TranscriptText: the fragments in order, each one
    after the first preceded by a single space. *)
Definition space_joined (texts : list str) : str :=
  match texts with
  | [] => []
  | t :: rest => fold_left (fun acc x => acc ++ lit " " ++ x) rest t
  end.

(** The text a document shows, in order: font, text and whether the text is
    centred. Vertical moves and empty cells show nothing. *)
Inductive printed := Printed (f : option font) (txt : str) (centred : bool).

Fixpoint printed_text (l : list pdf_op) : list printed :=
  match l with
  | [] => []
  | Cell f _ _ txt _ align :: r =>
      if truthy txt then Printed f txt (str_eqb align (lit "C")) :: printed_text r
      else printed_text r
  | MultiCell f _ _ txt :: r => Printed f txt false :: printed_text r
  | _ :: r => printed_text r
  end.

Definition bold (sz : N) : option font := Some (Font (lit "Arial") (lit "B") sz).
Definition regular (sz : N) : option font := Some (Font (lit "Arial") [] sz).

Definition nonblank (line : str) : bool := truthy (strip line).

(** The digits 0-9, for the examples. *)
Definition ascii_digit (c : char) : bool := ((48 <=? c) && (c <=? 57))%N.

(** [a] is [b] with some of its characters deleted. *)
Inductive subseq : str -> str -> Prop :=
| subseq_nil : subseq [] []
| subseq_keep c a b : subseq a b -> subseq (c :: a) (c :: b)
| subseq_drop c a b : subseq a b -> subseq a (c :: b).

(** The events that draw the form, which [main] causes on every run. *)
Definition is_widget (e : event) : bool :=
  match e with
  | StTitle _ | StSubheader _ | StSelectbox _ _ | StTextInput _
  | StImage _ | StButton _ => true
  | _ => false
  end.

(** The events that reach a service or the file system. *)
Definition is_request (e : event) : bool :=
  match e with
  | CaptionRequest _ | LLMRequest _ _ | FileWrite _ _ => true
  | _ => false
  end.

Definition is_caption_request (e : event) : bool :=
  match e with CaptionRequest _ => true | _ => false end.

Definition is_llm_request (e : event) : bool :=
  match e with LLMRequest _ _ => true | _ => false end.

Definition is_file_write (e : event) : bool :=
  match e with FileWrite _ _ => true | _ => false end.

(** The texts a document wraps into the page with [multi_cell]. *)
Fixpoint body_texts (l : list pdf_op) : list str :=
  match l with
  | [] => []
  | MultiCell _ _ _ txt :: r => txt :: body_texts r
  | _ :: r => body_texts r
  end.

Definition printed_str (p : printed) : str :=
  match p with Printed _ txt _ => txt end.

(** The address of the preview picture of line 132. *)
Definition thumbnail_url (youtube_link : str) : str :=
  lit "http://img.youtube.com/vi/" ++ video_id_of youtube_link ++ lit "/0.jpg".

(** The document that [save_as_pdf] lays out, call by call. *)
Definition layout (decimal_digit : char -> bool) (notes questions subject : str)
  : FPDF :=
  MkFPDF (Some (true, 15%N)) (regular 12)
    ([AddPage;
      Cell (bold 16) 200 10 (lit "Study Notes on " ++ subject) true (lit "C");
      Ln 10;
      Cell (bold 14) 200 10 (lit "Detailed Notes") true [];
      Ln 5]
     ++ flat_map (notes_line_ops (regular 12)) (str_split [NL] notes)
     ++ [Ln 10;
         Cell (bold 14) 200 10 (lit "Placement Aptitude Questions") true [];
         Ln 5]
     ++ flat_map (questions_line_ops decimal_digit (regular 12))
          (str_split [NL] questions)).

(** A library and a file system as the code can meet them, for the
    examples: the core fonts of fpdf take latin-1 text only, and a name
    with a slash in it names a directory that is not there. *)
Definition strict_output (name : str) (doc : FPDF) : result unit :=
  if negb (forallb (fun p => forallb (fun c => c <=? 255)%N (printed_str p))
             (printed_text (ops doc)))
  then Raise (Exception (lit "UnicodeEncodeError"))
  else if existsb (N.eqb 47) name
  then Raise (Exception (lit "FileNotFoundError"))
  else Ok tt.

(** A library and a file system that never fail, for the examples. *)
Definition output_ok (name : str) (doc : FPDF) : result unit := Ok tt.
Definition open_ok (name : str) : result unit := Ok tt.

(** * Properties *)

(** ** Strings *)

Lemma startswith_MARK s :
  startswith MARK s =
  match s with c :: d :: _ => is_star c && is_star d | _ => false end.
Proof.
  destruct s as [|c [|d s]]; unfold MARK, is_star; cbn [startswith];
    rewrite ?(N.eqb_sym STAR); try reflexivity.
  - now rewrite andb_false_r.
  - now rewrite andb_true_r.
Qed.

Lemma startswith_MARK_cons c s :
  startswith MARK (c :: s) = is_star c && head_star s.
Proof.
  rewrite startswith_MARK. destruct s; unfold head_star;
    now rewrite ?andb_false_r.
Qed.

Lemma startswith_NLNL_cons c s :
  startswith [NL; NL] (c :: s) = is_nl c && head_nl s.
Proof.
  destruct s as [|d s]; unfold is_nl, head_nl; cbn [startswith];
    rewrite ?(N.eqb_sym NL); now rewrite ?andb_false_r, ?andb_true_r.
Qed.

Lemma is_nl_eq c : is_nl c = true -> c = NL.
Proof. apply N.eqb_eq. Qed.

Lemma is_star_eq c : is_star c = true -> c = STAR.
Proof. apply N.eqb_eq. Qed.

Lemma startswith_app p s : startswith p (p ++ s) = true.
Proof. induction p as [|x p IH]; cbn; [reflexivity|]. now rewrite N.eqb_refl. Qed.

Lemma startswith_split p s :
  startswith p s = true -> exists post, s = p ++ post.
Proof.
  revert s; induction p as [|x p IH]; intros s H; cbn in *.
  - now exists s.
  - destruct s as [|y s]; [discriminate|].
    apply andb_true_iff in H as [Hxy Hp]. apply N.eqb_eq in Hxy; subst y.
    destruct (IH _ Hp) as [post ->]. now exists post.
Qed.

Lemma str_in_spec needle hay :
  str_in needle hay = true <-> has_substring needle hay.
Proof.
  split.
  - induction hay as [|c hay IH]; cbn; intros H.
    + rewrite orb_false_r in H. destruct needle; [|discriminate].
      now exists [], [].
    + apply orb_true_iff in H as [H|H].
      * destruct (startswith_split _ _ H) as [post E]. exists [], post. exact E.
      * destruct (IH H) as (pre & post & ->). now exists (c :: pre), post.
  - intros (pre & post & ->). induction pre as [|c pre IH]; cbn.
    + destruct (needle ++ post) eqn:E; cbn.
      * destruct needle; [reflexivity|discriminate].
      * rewrite <- E, startswith_app. reflexivity.
    + rewrite IH. apply orb_true_r.
Qed.

Lemma str_join_cons sep x y rest :
  str_join sep (x :: y :: rest) = x ++ sep ++ str_join sep (y :: rest).
Proof. reflexivity. Qed.

Lemma str_join_app sep l1 l2 :
  l1 <> [] -> l2 <> [] ->
  str_join sep (l1 ++ l2) = str_join sep l1 ++ sep ++ str_join sep l2.
Proof.
  intros H1 H2. induction l1 as [|x l1 IH]; [contradiction|].
  destruct l1 as [|y l1].
  - destruct l2; [contradiction|reflexivity].
  - change ((x :: y :: l1) ++ l2) with (x :: y :: (l1 ++ l2)).
    rewrite !str_join_cons.
    change (y :: l1 ++ l2) with ((y :: l1) ++ l2).
    rewrite IH by discriminate. now rewrite <- !app_assoc.
Qed.

Lemma space_joined_join texts : str_join (lit " ") texts = space_joined texts.
Proof.
  destruct texts as [|t rest]; [reflexivity|]. cbn [space_joined].
  revert t; induction rest as [|x rest IH]; intros t; [reflexivity|].
  rewrite str_join_cons. cbn [fold_left]. rewrite <- IH.
  destruct rest as [|y rest]; [reflexivity|].
  rewrite !str_join_cons. now rewrite <- !app_assoc.
Qed.

Lemma split_go_no_sep sep cur s :
  str_in sep s = false -> split_go sep 0 cur s = [cur ++ s].
Proof.
  revert cur; induction s as [|c s IH]; intros cur H; cbn.
  - now rewrite app_nil_r.
  - cbn in H. apply orb_false_iff in H as [H1 H2].
    cbn in H1. rewrite H1, IH by assumption. now rewrite <- app_assoc.
Qed.

(** ** Substitution: the fuel is enough *)

Section ReSub.

Variable m : matcher.
Hypothesis m_shrinks : shrinks m.

Lemma re_sub_fuel_irrelevant n1 :
  forall n2 s, length s <= n1 -> length s <= n2 ->
  re_sub_fuel m n1 s = re_sub_fuel m n2 s.
Proof.
  induction n1 as [|n1 IH]; intros n2 s H1 H2.
  - destruct s; [|cbn in H1; lia]. now destruct n2.
  - destruct s as [|c s]; [now destruct n2|].
    destruct n2 as [|n2]; [cbn in H2; lia|].
    cbn [re_sub_fuel]. cbn [length] in H1, H2.
    destruct (m (c :: s)) as [[repl rest]|] eqn:E.
    + apply m_shrinks in E. cbn [length] in E.
      f_equal. apply IH; lia.
    + f_equal. apply IH; lia.
Qed.

Lemma re_sub_nil : re_sub m [] = [].
Proof. reflexivity. Qed.

(** The equation of the scan. *)
Lemma re_sub_cons c s :
  re_sub m (c :: s) =
  match m (c :: s) with
  | Some (repl, rest) => repl ++ re_sub m rest
  | None => c :: re_sub m s
  end.
Proof.
  unfold re_sub. cbn [length re_sub_fuel].
  destruct (m (c :: s)) as [[repl rest]|] eqn:E.
  - pose proof (m_shrinks E) as L. cbn [length] in L.
    f_equal. apply re_sub_fuel_irrelevant; lia.
  - reflexivity.
Qed.

(** Induction along the scan. *)
Lemma re_sub_ind (P : str -> Prop) :
  P [] ->
  (forall c s, m (c :: s) = None -> P s -> P (c :: s)) ->
  (forall c s repl rest, m (c :: s) = Some (repl, rest) -> P rest -> P (c :: s)) ->
  forall s, P s.
Proof.
  intros Hnil Hnone Hsome s.
  remember (length s) as n eqn:En.
  assert (Hle : length s <= n) by lia. clear En.
  revert s Hle. induction n as [|n IH]; intros s Hle.
  - destruct s; [exact Hnil|cbn in Hle; lia].
  - destruct s as [|c s]; [exact Hnil|]. cbn [length] in Hle.
    destruct (m (c :: s)) as [[repl rest]|] eqn:E.
    + apply (Hsome _ _ _ _ E). apply IH.
      apply m_shrinks in E. cbn [length] in E. lia.
    + apply (Hnone _ _ E). apply IH. lia.
Qed.

End ReSub.

(** ** The closing marker *)

Lemma find_close_cons c s :
  find_close (c :: s) =
  if is_star c && head_star s then Some ([], tl s)
  else if is_nl c then None
  else match find_close s with
       | Some (inner, rest) => Some (c :: inner, rest)
       | None => None
       end.
Proof.
  cbn [find_close]. rewrite startswith_MARK_cons.
  destruct s; reflexivity.
Qed.

Lemma bold_match_cons c s :
  bold_match (c :: s) =
  if is_star c && head_star s then find_close (tl s) else None.
Proof.
  unfold bold_match. rewrite startswith_MARK_cons. destruct s; reflexivity.
Qed.

Lemma star_not_nl c : is_star c = true -> is_nl c = false.
Proof. intros H. apply is_star_eq in H. now subst. Qed.

(** What [find_close] returns: the text up to the closing marker, which has
    no newline, and the text after it. *)
Lemma find_close_split s inner rest :
  find_close s = Some (inner, rest) ->
  s = inner ++ MARK ++ rest /\ no_nl inner = true.
Proof.
  revert inner rest; induction s as [|c s IH]; intros inner rest H;
    [discriminate|].
  rewrite find_close_cons in H.
  destruct (is_star c && head_star s) eqn:E.
  - injection H as <- <-. apply andb_true_iff in E as [Hc Hs].
    destruct s as [|d s]; [discriminate|]. cbn in Hs.
    apply is_star_eq in Hc, Hs. now subst.
  - destruct (is_nl c) eqn:Hnl; [discriminate|].
    destruct (find_close s) as [[i r]|]; [|discriminate].
    injection H as <- <-. destruct (IH _ _ eq_refl) as [-> Hi].
    split; [reflexivity|]. cbn. now rewrite Hnl.
Qed.

Lemma find_close_length s inner rest :
  find_close s = Some (inner, rest) -> length rest < length s.
Proof.
  intros H. apply find_close_split in H as [-> _].
  rewrite !length_app. cbn. lia.
Qed.

Lemma bold_match_shrinks : shrinks bold_match.
Proof.
  intros [|c s] repl rest H; [discriminate|]. rewrite bold_match_cons in H.
  destruct (is_star c && head_star s); [|discriminate].
  apply find_close_length in H. destruct s; cbn in *; lia.
Qed.

Lemma skip_non_ascii_length s : length (skip_non_ascii s) <= length s.
Proof.
  induction s as [|c s IH]; cbn; [lia|]. destruct (is_ascii c); cbn; lia.
Qed.

Lemma non_ascii_match_shrinks : shrinks non_ascii_match.
Proof.
  intros [|c s] repl rest H; [discriminate|]. cbn in H.
  destruct (is_ascii c); [discriminate|]. injection H as <- <-.
  pose proof (skip_non_ascii_length s). cbn. lia.
Qed.

Lemma skip_nl_length s : length (skip_nl s) <= length s.
Proof.
  induction s as [|c s IH]; cbn [skip_nl length]; [lia|].
  destruct (is_nl c); cbn [length]; lia.
Qed.

Lemma newlines_match_cons c s :
  newlines_match (c :: s) =
  if is_nl c && head_nl s then Some ([NL], skip_nl (tl s)) else None.
Proof.
  unfold newlines_match. rewrite startswith_NLNL_cons. destruct s; reflexivity.
Qed.

Lemma newlines_match_shrinks : shrinks newlines_match.
Proof.
  intros [|c s] repl rest H; [discriminate|]. rewrite newlines_match_cons in H.
  destruct (is_nl c && head_nl s); [|discriminate]. injection H as <- <-.
  destruct s as [|d s]; cbn [tl length]; [cbn; lia|].
  pose proof (skip_nl_length s). lia.
Qed.

(** ** The three substitutions of [clean_text] *)

Lemma unbold_cons c s :
  unbold (c :: s) =
  match bold_match (c :: s) with
  | Some (inner, rest) => inner ++ unbold rest
  | None => c :: unbold s
  end.
Proof. apply (re_sub_cons bold_match_shrinks). Qed.

Lemma bold_match_split s inner rest :
  bold_match s = Some (inner, rest) ->
  s = MARK ++ inner ++ MARK ++ rest /\ no_nl inner = true.
Proof.
  destruct s as [|c s]; [discriminate|]. rewrite bold_match_cons.
  destruct (is_star c && head_star s) eqn:E; [|discriminate].
  intros H. apply find_close_split in H as [H Hi]. split; [|exact Hi].
  apply andb_true_iff in E as [Hc Hs]. destruct s as [|d s]; [discriminate|].
  cbn in Hs, H. apply is_star_eq in Hc, Hs. now subst.
Qed.

Lemma filter_skip_non_ascii s :
  filter is_ascii (skip_non_ascii s) = filter is_ascii s.
Proof.
  induction s as [|c s IH]; [reflexivity|]. cbn [skip_non_ascii filter].
  destruct (is_ascii c) eqn:E; [|exact IH]. cbn [filter]. now rewrite E.
Qed.

(** The second substitution deletes exactly the characters above 127. *)
Lemma non_ascii_sub_filter s :
  re_sub non_ascii_match s = filter is_ascii s.
Proof.
  induction s as [|c s Hm IH|c s repl rest Hm IH]
    using (re_sub_ind non_ascii_match_shrinks); [reflexivity| |];
    rewrite (re_sub_cons non_ascii_match_shrinks), Hm; cbn in Hm;
    destruct (is_ascii c) eqn:E; try discriminate.
  - cbn [filter]. now rewrite E, IH.
  - injection Hm as <- <-. cbn [filter app]. now rewrite E, IH, filter_skip_non_ascii.
Qed.

Lemma collapse_cons c s :
  collapse (c :: s) = if is_nl c && head_nl s then collapse s else c :: collapse s.
Proof. reflexivity. Qed.

Lemma collapse_nl_skip s : collapse (NL :: s) = NL :: collapse (skip_nl s).
Proof.
  induction s as [|c s IH]; [reflexivity|].
  rewrite collapse_cons. cbn [skip_nl head_nl]. change (is_nl NL) with true.
  cbn [andb]. destruct (is_nl c) eqn:E; [|reflexivity].
  apply is_nl_eq in E; subst c. exact IH.
Qed.

(** The third substitution keeps the last newline of every run. *)
Lemma newlines_sub_collapse s :
  re_sub newlines_match s = collapse s.
Proof.
  induction s as [|c s Hm IH|c s repl rest Hm IH]
    using (re_sub_ind newlines_match_shrinks); [reflexivity| |];
    rewrite (re_sub_cons newlines_match_shrinks), Hm;
    rewrite newlines_match_cons in Hm; rewrite collapse_cons;
    destruct (is_nl c && head_nl s) eqn:E; try discriminate.
  - now rewrite IH.
  - injection Hm as <- <-. rewrite IH.
    apply andb_true_iff in E as [Hc Hs]. destruct s as [|d s]; [discriminate|].
    cbn in Hs. apply is_nl_eq in Hs; subst d. cbn [tl app].
    symmetry. apply collapse_nl_skip.
Qed.

Lemma clean_text_eq x :
  clean_text x = collapse (filter is_ascii (unbold x)).
Proof.
  unfold clean_text. now rewrite non_ascii_sub_filter, newlines_sub_collapse.
Qed.

Lemma head_nl_collapse s : head_nl (collapse s) = head_nl s.
Proof.
  induction s as [|c s IH]; [reflexivity|]. rewrite collapse_cons.
  destruct (is_nl c && head_nl s) eqn:E; [|reflexivity].
  apply andb_true_iff in E as [Hc Hs]. rewrite IH, Hs. cbn. now rewrite Hc.
Qed.

Lemma collapse_all_ascii s : all_ascii s = true -> all_ascii (collapse s) = true.
Proof.
  unfold all_ascii. induction s as [|c s IH]; [reflexivity|].
  cbn [forallb]. intros H. apply andb_true_iff in H as [Hc Hs].
  rewrite collapse_cons. destruct (is_nl c && head_nl s); [now apply IH|].
  cbn [forallb]. now rewrite Hc, IH.
Qed.

Lemma filter_all_ascii s : all_ascii (filter is_ascii s) = true.
Proof.
  unfold all_ascii. induction s as [|c s IH]; [reflexivity|].
  cbn [filter]. destruct (is_ascii c) eqn:E; [|exact IH].
  cbn [forallb]. now rewrite E, IH.
Qed.

Lemma filter_ascii_id s : all_ascii s = true -> filter is_ascii s = s.
Proof.
  unfold all_ascii. induction s as [|c s IH]; [reflexivity|].
  cbn [forallb filter]. intros H. apply andb_true_iff in H as [Hc Hs].
  now rewrite Hc, IH.
Qed.

Lemma clean_text_all_ascii x : all_ascii (clean_text x) = true.
Proof. rewrite clean_text_eq. apply collapse_all_ascii, filter_all_ascii. Qed.



Lemma no_double_nl_collapse s : str_in [NL; NL] (collapse s) = false.
Proof.
  induction s as [|c s IH]; [reflexivity|]. rewrite collapse_cons.
  destruct (is_nl c && head_nl s) eqn:E; [exact IH|].
  cbn [str_in]. rewrite IH, startswith_NLNL_cons, head_nl_collapse, E.
  reflexivity.
Qed.

(** ** No wrapped span is left by the first substitution *)

Lemma head_star_unbold s : head_star (unbold s) = true -> head_star s = true.
Proof.
  destruct s as [|c s]; [discriminate|]. rewrite unbold_cons, bold_match_cons.
  destruct (is_star c && head_star s) eqn:E.
  - intros _. now apply andb_true_iff in E as [E _].
  - trivial.
Qed.

Lemma find_close_none_unbold s :
  find_close s = None -> find_close (unbold s) = None.
Proof.
  induction s as [|c s IH]; [reflexivity|].
  rewrite find_close_cons. intros H.
  destruct (is_star c && head_star s) eqn:E; [discriminate|].
  rewrite unbold_cons, bold_match_cons, E, find_close_cons.
  destruct (is_star c && head_star (unbold s)) eqn:E'.
  - apply andb_true_iff in E' as [Hc Hs]. apply head_star_unbold in Hs.
    now rewrite Hc, Hs in E.
  - destruct (is_nl c); [reflexivity|].
    destruct (find_close s) as [[i r]|]; [discriminate|].
    now rewrite IH.
Qed.

Lemma find_close_none_bold_match d s :
  find_close s = None -> bold_match (d :: s) = None.
Proof.
  intros H. rewrite bold_match_cons.
  destruct (is_star d && head_star s) eqn:E; [|reflexivity].
  apply andb_true_iff in E as [_ Hs]. destruct s as [|e s]; [discriminate|].
  cbn in Hs. cbn [tl]. rewrite find_close_cons in H.
  destruct (is_star e && head_star s); [discriminate|].
  rewrite (star_not_nl _ Hs) in H.
  now destruct (find_close s) as [[i r]|].
Qed.

Lemma has_span_cons c s :
  has_span (c :: s) =
  match bold_match (c :: s) with Some _ => true | None => false end
  || has_span s.
Proof. reflexivity. Qed.

(** The text between the markers has no marker in it and no asterisk at its
    end, so no span can start inside it. *)
Lemma has_span_inner s inner rest z :
  find_close s = Some (inner, rest) ->
  has_span z = false -> has_span (inner ++ z) = false.
Proof.
  revert inner rest; induction s as [|c s IH]; intros inner rest H Hz;
    [discriminate|].
  rewrite find_close_cons in H.
  destruct (is_star c && head_star s) eqn:E.
  - injection H as <- <-. exact Hz.
  - destruct (is_nl c); [discriminate|].
    destruct (find_close s) as [[i r]|] eqn:F; [|discriminate].
    injection H as <- <-. cbn [app]. rewrite has_span_cons.
    rewrite (IH _ _ eq_refl Hz), orb_false_r, bold_match_cons.
    destruct (find_close_split _ F) as [-> _].
    destruct i as [|e i].
    + cbn in E. rewrite andb_true_r in E. now rewrite E.
    + cbn [app head_star] in E |- *. now rewrite E.
Qed.

Lemma unbold_no_span s : has_span (unbold s) = false.
Proof.
  induction s as [|c s Hm IH|c s inner rest Hm IH]
    using (re_sub_ind bold_match_shrinks); [reflexivity| |];
    rewrite unbold_cons, Hm.
  - rewrite has_span_cons, IH, orb_false_r.
    rewrite bold_match_cons in *.
    destruct (is_star c && head_star (unbold s)) eqn:E'; [|reflexivity].
    apply andb_true_iff in E' as [Hc Hs]. apply head_star_unbold in Hs.
    rewrite Hc, Hs in Hm. cbn [andb] in Hm.
    destruct s as [|d s]; [discriminate|]. cbn [tl] in Hm.
    rewrite unbold_cons, (find_close_none_bold_match d _ Hm). cbn [tl].
    now rewrite (find_close_none_unbold _ Hm).
  - rewrite bold_match_cons in Hm.
    destruct (is_star c && head_star s); [|discriminate].
    now apply (has_span_inner _ _ Hm).
Qed.

(** A text without a wrapped span is left as it is. *)
Lemma unbold_fixed s : has_span s = false -> unbold s = s.
Proof.
  induction s as [|c s IH]; [reflexivity|]. rewrite has_span_cons.
  intros H. apply orb_false_iff in H as [Hm Hs]. rewrite unbold_cons.
  destruct (bold_match (c :: s)); [discriminate|]. now rewrite IH.
Qed.

Lemma head_star_collapse s : head_star (collapse s) = head_star s.
Proof.
  induction s as [|c s IH]; [reflexivity|]. rewrite collapse_cons.
  destruct (is_nl c && head_nl s) eqn:E; [|reflexivity].
  apply andb_true_iff in E as [Hc Hs]. destruct s as [|d s]; [discriminate|].
  cbn in Hs. rewrite IH. cbn. apply is_nl_eq in Hc, Hs. now subst.
Qed.

Lemma find_close_nl s : find_close (NL :: s) = None.
Proof. now rewrite find_close_cons. Qed.

Lemma find_close_collapse_none s :
  find_close s = None -> find_close (collapse s) = None.
Proof.
  induction s as [|c s IH]; [reflexivity|].
  rewrite find_close_cons, collapse_cons. intros H.
  destruct (is_star c && head_star s) eqn:E; [discriminate|].
  destruct (is_nl c) eqn:Hc.
  - apply is_nl_eq in Hc; subst c. cbn [is_nl andb].
    change (is_nl NL) with true. cbn [andb].
    destruct (head_nl s) eqn:Hs; [|apply find_close_nl].
    destruct s as [|d s]; [discriminate|]. cbn in Hs.
    apply is_nl_eq in Hs; subst d.
    destruct (collapse (NL :: s)) as [|e r] eqn:Ec; [reflexivity|].
    pose proof (head_nl_collapse (NL :: s)) as Hh. rewrite Ec in Hh.
    cbn in Hh. apply is_nl_eq in Hh; subst e. apply find_close_nl.
  - cbn [andb]. rewrite find_close_cons, head_star_collapse, E, Hc.
    destruct (find_close s) as [[i r]|]; [discriminate|]. now rewrite IH.
Qed.

Lemma tl_collapse_star c s :
  is_star c = true -> collapse (c :: s) = c :: collapse s.
Proof. intros H. rewrite collapse_cons. now rewrite (star_not_nl _ H). Qed.

Lemma collapse_no_span s : has_span s = false -> has_span (collapse s) = false.
Proof.
  induction s as [|c s IH]; [reflexivity|]. rewrite has_span_cons.
  intros H. apply orb_false_iff in H as [Hm Hs]. rewrite collapse_cons.
  destruct (is_nl c && head_nl s); [now apply IH|].
  rewrite has_span_cons, (IH Hs), orb_false_r.
  rewrite bold_match_cons in *. rewrite head_star_collapse.
  destruct (is_star c && head_star s) eqn:E; [|reflexivity].
  apply andb_true_iff in E as [_ Hd]. destruct s as [|d s]; [discriminate|].
  cbn in Hd. rewrite (tl_collapse_star _ s Hd). cbn [tl] in *.
  destruct (find_close s) eqn:F; [discriminate|].
  now rewrite (find_close_collapse_none _ F).
Qed.

Lemma collapse_idem s : collapse (collapse s) = collapse s.
Proof.
  induction s as [|c s IH]; [reflexivity|]. rewrite collapse_cons.
  destruct (is_nl c && head_nl s) eqn:E; [exact IH|].
  now rewrite collapse_cons, head_nl_collapse, E, IH.
Qed.

Lemma unbold_all_ascii s : all_ascii s = true -> all_ascii (unbold s) = true.
Proof.
  unfold all_ascii.
  induction s as [|c s Hm IH|c s inner rest Hm IH]
    using (re_sub_ind bold_match_shrinks); [reflexivity| |];
    rewrite unbold_cons, Hm; intros H.
  - cbn [forallb] in *. apply andb_true_iff in H as [-> H]. now rewrite IH.
  - apply bold_match_split in Hm as [E _]. rewrite E in H.
    rewrite !forallb_app in H. rewrite forallb_app.
    apply andb_true_iff in H as [_ H]. apply andb_true_iff in H as [-> H].
    apply andb_true_iff in H as [_ H]. now rewrite IH.
Qed.

(** ** A span never crosses a newline *)

Lemma head_star_app_nl s b : head_star (s ++ NL :: b) = head_star s.
Proof. now destruct s. Qed.

Lemma find_close_app_nl u b :
  find_close (u ++ NL :: b) =
  match find_close u with
  | Some (inner, rest) => Some (inner, rest ++ NL :: b)
  | None => None
  end.
Proof.
  induction u as [|c u IH]; [apply find_close_nl|].
  cbn [app]. rewrite !find_close_cons, head_star_app_nl, IH.
  destruct (is_star c && head_star u) eqn:E.
  - apply andb_true_iff in E as [_ E]. now destruct u.
  - destruct (is_nl c); [reflexivity|]. now destruct (find_close u) as [[i r]|].
Qed.

Lemma bold_match_app_nl c s b :
  bold_match (c :: s ++ NL :: b) =
  match bold_match (c :: s) with
  | Some (inner, rest) => Some (inner, rest ++ NL :: b)
  | None => None
  end.
Proof.
  rewrite !bold_match_cons, head_star_app_nl.
  destruct (is_star c && head_star s) eqn:E; [|reflexivity].
  apply andb_true_iff in E as [_ E]. destruct s as [|d s]; [discriminate|].
  apply find_close_app_nl.
Qed.

Lemma unbold_nl b : unbold (NL :: b) = NL :: unbold b.
Proof. now rewrite unbold_cons, bold_match_cons. Qed.

Lemma unbold_app_nl (a : str) b : unbold (a ++ NL :: b) = unbold a ++ NL :: unbold b.
Proof.
  induction a as [|c s Hm IH|c s inner rest Hm IH]
    using (re_sub_ind bold_match_shrinks); [apply unbold_nl| |];
    cbn [app]; rewrite !unbold_cons, bold_match_app_nl, Hm, IH.
  - reflexivity.
  - now rewrite <- app_assoc.
Qed.






(** ** A span that is matched *)

Lemma marker_free_cons c s :
  marker_free (c :: s) = true ->
  is_star c && head_star (s ++ [STAR]) = false /\ marker_free s = true.
Proof.
  unfold marker_free. cbn [app str_in]. rewrite startswith_MARK_cons.
  rewrite negb_true_iff, orb_false_iff. intros [H1 H2]. now rewrite H2.
Qed.

Lemma head_star_app_star s z :
  head_star (s ++ [STAR]) = false -> head_star (s ++ z) = false.
Proof. destruct s; [discriminate|trivial]. Qed.

Lemma marker_free_head c s z :
  marker_free (c :: s) = true -> is_star c && head_star (s ++ z) = false.
Proof.
  intros H. apply marker_free_cons in H as [H _].
  apply andb_false_iff in H as [->|H]; [reflexivity|].
  now rewrite (head_star_app_star _ z H), andb_false_r.
Qed.

Lemma unbold_marker_free pre z :
  marker_free pre = true -> unbold (pre ++ z) = pre ++ unbold z.
Proof.
  induction pre as [|c pre IH]; [reflexivity|]. intros H. cbn [app].
  rewrite unbold_cons, bold_match_cons, (marker_free_head _ _ z H).
  apply marker_free_cons in H as [_ H]. now rewrite IH.
Qed.

Lemma find_close_inner inner post :
  no_nl inner = true -> marker_free inner = true ->
  find_close (inner ++ MARK ++ post) = Some (inner, post).
Proof.
  induction inner as [|c inner IH]; intros Hn Hf; [reflexivity|].
  cbn [app]. rewrite find_close_cons, (marker_free_head _ _ _ Hf).
  cbn in Hn. apply andb_true_iff in Hn as [Hc Hn].
  apply negb_true_iff in Hc. rewrite Hc.
  apply marker_free_cons in Hf as [_ Hf]. now rewrite IH.
Qed.

Lemma unbold_span inner post :
  no_nl inner = true -> marker_free inner = true ->
  unbold (MARK ++ inner ++ MARK ++ post) = inner ++ unbold post.
Proof.
  intros Hn Hf. unfold MARK at 1. cbn [app].
  rewrite unbold_cons, bold_match_cons. cbn [head_star tl].
  change (is_star STAR) with true. cbn [andb].
  now rewrite find_close_inner.
Qed.

Lemma collapse_app_plain_l a (inner : str) :
  head_nl inner = false -> inner <> [] ->
  collapse (a ++ inner) = collapse a ++ collapse inner.
Proof.
  intros Hh Hne. induction a as [|c a IH]; [reflexivity|]. cbn [app].
  rewrite !collapse_cons, IH.
  replace (head_nl (a ++ inner)) with (head_nl a).
  - now destruct (is_nl c && head_nl a).
  - destruct a; [|reflexivity]. cbn [app]. now rewrite Hh.
Qed.

Lemma collapse_plain_r (inner : str) b :
  no_nl inner = true -> inner <> [] ->
  collapse (inner ++ b) = inner ++ collapse b.
Proof.
  intros Hn Hne. induction inner as [|c inner IH]; [contradiction|].
  cbn in Hn. apply andb_true_iff in Hn as [Hc Hn]. apply negb_true_iff in Hc.
  cbn [app]. rewrite collapse_cons, Hc. cbn [andb].
  destruct inner as [|d inner]; [reflexivity|].
  now rewrite IH.
Qed.

Lemma no_nl_head (inner : str) : no_nl inner = true -> head_nl inner = false.
Proof.
  destruct inner as [|c inner]; [reflexivity|]. cbn.
  intros H. apply andb_true_iff in H as [H _]. now apply negb_true_iff.
Qed.

(** ** The normaliser only deletes *)

Lemma subseq_refl s : subseq s s.
Proof. induction s; now constructor. Qed.

Lemma subseq_app a b c d : subseq a b -> subseq c d -> subseq (a ++ c) (b ++ d).
Proof. intros H1 H2. induction H1; cbn [app]; try now constructor. exact H2. Qed.

Lemma subseq_drop_app p a b : subseq a b -> subseq a (p ++ b).
Proof. intros H. induction p as [|c p IH]; [exact H|]. now constructor. Qed.

Lemma subseq_trans a b c : subseq a b -> subseq b c -> subseq a c.
Proof.
  intros H1 H2. revert a H1. induction H2 as [|x b c H2 IH|x b c H2 IH]; intros a H1.
  - exact H1.
  - inversion H1; subst.
    + constructor. now apply IH.
    + apply subseq_drop. now apply IH.
  - apply subseq_drop. now apply IH.
Qed.

Lemma subseq_length a b : subseq a b -> length a <= length b.
Proof. induction 1; cbn [length]; lia. Qed.

Lemma subseq_In a b c : subseq a b -> In c a -> In c b.
Proof.
  induction 1 as [|x a b H IH|x a b H IH]; intros Hin; [exact Hin| |].
  - destruct Hin as [->|Hin]; [now left|right; now apply IH].
  - right. now apply IH.
Qed.

Lemma unbold_subseq (s : str) : subseq (unbold s) s.
Proof.
  induction s as [|c s Hm IH|c s inner rest Hm IH]
    using (re_sub_ind bold_match_shrinks); [constructor| |];
    rewrite unbold_cons, Hm.
  - now constructor.
  - apply bold_match_split in Hm as [-> _].
    apply (subseq_drop_app MARK).
    apply subseq_app; [apply subseq_refl|]. now apply (subseq_drop_app MARK).
Qed.

Lemma filter_subseq (f : char -> bool) s : subseq (filter f s) s.
Proof.
  induction s as [|c s IH]; [constructor|]. cbn [filter].
  destruct (f c); now constructor.
Qed.

Lemma collapse_subseq s : subseq (collapse s) s.
Proof.
  induction s as [|c s IH]; [constructor|]. rewrite collapse_cons.
  destruct (is_nl c && head_nl s); now constructor.
Qed.

Lemma collapse_fixed s : str_in [NL; NL] s = false -> collapse s = s.
Proof.
  induction s as [|c s IH]; [reflexivity|]. cbn [str_in].
  rewrite startswith_NLNL_cons, orb_false_iff. intros [H1 H2].
  now rewrite collapse_cons, H1, IH.
Qed.

Lemma unbold_shorter (s : str) :
  length (unbold s) <= length s /\
  (has_span s = true -> length (unbold s) < length s).
Proof.
  induction s as [|c s Hm IH|c s inner rest Hm IH]
    using (re_sub_ind bold_match_shrinks);
    [split; [reflexivity|discriminate]| |];
    rewrite unbold_cons, has_span_cons, Hm; destruct IH as [IH1 IH2].
  - cbn [length orb]. split; [lia|]. intros H. apply IH2 in H. lia.
  - apply bold_match_split in Hm as [E _]. rewrite E.
    rewrite !length_app. cbn [length MARK]. split; [lia|]. intros _. lia.
Qed.

(** ** Spans and newlines across the third substitution *)

Lemma find_close_collapse_some s inner rest :
  find_close s = Some (inner, rest) ->
  exists rest', find_close (collapse s) = Some (inner, rest').
Proof.
  revert inner rest; induction s as [|c s IH]; intros inner rest H;
    [discriminate|].
  rewrite find_close_cons in H.
  destruct (is_star c && head_star s) eqn:E.
  - injection H as <- <-. apply andb_true_iff in E as [Hc Hs].
    rewrite (tl_collapse_star _ s Hc), find_close_cons, head_star_collapse, Hc, Hs.
    now eexists.
  - destruct (is_nl c) eqn:Hn; [discriminate|].
    destruct (find_close s) as [[i r]|]; [|discriminate]. injection H as <- <-.
    destruct (IH _ _ eq_refl) as [r' Hr].
    rewrite collapse_cons, Hn. cbn [andb].
    rewrite find_close_cons, head_star_collapse, E, Hn, Hr. now eexists.
Qed.

Lemma collapse_span_back s : has_span (collapse s) = false -> has_span s = false.
Proof.
  induction s as [|c s IH]; [reflexivity|]. rewrite collapse_cons, has_span_cons.
  destruct (is_nl c && head_nl s) eqn:E.
  - intros H. rewrite (IH H), orb_false_r, bold_match_cons.
    apply andb_true_iff in E as [Hc _]. apply is_nl_eq in Hc. now subst c.
  - rewrite has_span_cons. intros H. apply orb_false_iff in H as [Hm Hs].
    rewrite (IH Hs), orb_false_r. rewrite bold_match_cons in *.
    rewrite head_star_collapse in Hm.
    destruct (is_star c && head_star s) eqn:F; [|reflexivity].
    apply andb_true_iff in F as [_ Hd]. destruct s as [|d s]; [discriminate|].
    cbn in Hd. rewrite (tl_collapse_star _ s Hd) in Hm. cbn [tl] in *.
    destruct (find_close s) as [[i r]|] eqn:G; [|reflexivity].
    destruct (find_close_collapse_some _ G) as [r' Hr]. now rewrite Hr in Hm.
Qed.





Lemma unbold_lone_marker post :
  find_close post = None -> unbold (MARK ++ post) = MARK ++ unbold post.
Proof.
  intros H. unfold MARK. cbn [app].
  rewrite unbold_cons, bold_match_cons. cbn [head_star tl].
  change (is_star STAR) with true. cbn [andb]. rewrite H.
  now rewrite unbold_cons, (find_close_none_bold_match STAR _ H).
Qed.

Lemma unbold_marker_free_id p : marker_free p = true -> unbold p = p.
Proof.
  intros H. pose proof (unbold_marker_free p [] H) as E.
  rewrite app_nil_r in E. rewrite E. apply app_nil_r.
Qed.


(** ** The text normaliser *)

Example clean_text_bold :
  clean_text (lit "a **bold** word") = lit "a bold word".
Proof. reflexivity. Qed.

Example clean_text_emoji :
  clean_text ([127891%N] ++ lit " CS") = lit " CS".
Proof. reflexivity. Qed.

Example clean_text_lone_marker :
  clean_text (lit "2 ** 3") = lit "2 ** 3".
Proof. reflexivity. Qed.

(** C1, as the spec states it, fails: deleting the character between two
    asterisks brings them together, and the marker so formed is only taken
    away by a second pass. For ["*" + U+00E9 + "*a**"] the first pass gives
    ["**a**"] and the second gives ["a"]. *)
Lemma clean_text_twice_differs :
  clean_text (lit "*" ++ [233%N] ++ lit "*a**") = lit "**a**" /\
  clean_text (clean_text (lit "*" ++ [233%N] ++ lit "*a**")) = lit "a" /\
  clean_text (clean_text (lit "*" ++ [233%N] ++ lit "*a**"))
    <> clean_text (lit "*" ++ [233%N] ++ lit "*a**").
Proof. repeat split. vm_compute. discriminate. Qed.

(** C1 (amended): for every input string, applying the normaliser twice
    gives the same as applying it once if and only if the deletion of the
    characters above 127 leaves no span wrapped in double asterisks on one
    line, that is, if and only if the text after the first two
    substitutions has no such span. This is so for every string whose
    characters all lie in 0..127. *)
Theorem clean_text_idempotent_iff x :
  (clean_text (clean_text x) = clean_text x <-> joins_markers x = false) /\
  (all_ascii x = true -> joins_markers x = false).
Proof.
  unfold joins_markers. split.
  - split.
    + intros H. apply collapse_span_back. rewrite <- clean_text_eq.
      destruct (has_span (clean_text x)) eqn:E; [|reflexivity].
      pose proof (proj2 (unbold_shorter (clean_text x)) E) as L1.
      pose proof (subseq_length
                    (subseq_trans (collapse_subseq _)
                       (filter_subseq is_ascii (unbold (clean_text x))))) as L2.
      rewrite <- clean_text_eq, H in L2. lia.
    + intros H. apply collapse_no_span in H. rewrite <- clean_text_eq in H.
      rewrite (clean_text_eq (clean_text x)).
      rewrite (unbold_fixed _ H), (filter_ascii_id _ (clean_text_all_ascii x)).
      rewrite (clean_text_eq x). apply collapse_idem.
  - intros Ha. rewrite (filter_ascii_id _ (unbold_all_ascii _ Ha)).
    apply unbold_no_span.
Qed.

Lemma clean_text_idempotent_iff_witness :
  all_ascii (lit "see **this** and *that*" ++ [NL; NL; NL] ++ lit "** end") = true /\
  clean_text (clean_text (lit "see **this** and *that*" ++ [NL; NL; NL] ++ lit "** end"))
  = clean_text (lit "see **this** and *that*" ++ [NL; NL; NL] ++ lit "** end").
Proof.
  split; [reflexivity|].
  apply (proj1 (clean_text_idempotent_iff
                  (lit "see **this** and *that*" ++ [NL; NL; NL] ++ lit "** end"))).
  apply (proj2 (clean_text_idempotent_iff
                  (lit "see **this** and *that*" ++ [NL; NL; NL] ++ lit "** end"))).
  vm_compute. reflexivity.
Defined.




(** C5, as the spec states it, fails: the text between the markers is not
    kept when it has a character above 127 in it, and the markers are not
    removed when a newline stands between them. *)
Lemma clean_text_span_not_verbatim :
  clean_text (MARK ++ [233%N] ++ MARK) = [] /\
  clean_text (MARK ++ lit "a" ++ [NL] ++ lit "b" ++ MARK)
  = MARK ++ lit "a" ++ [NL] ++ lit "b" ++ MARK.
Proof. split; reflexivity. Qed.

(** C5 (amended): let the input be [pre ** inner ** post], where [pre] and
    [inner] have no double asterisk in them and do not end with an asterisk,
    and [inner] is not empty, has no newline and has only characters in
    0..127. Then the output is the normalised [pre], then [inner] as it is,
    then the normalised [post]. *)
Theorem clean_text_unwraps_span pre inner post :
  marker_free pre = true ->
  marker_free inner = true ->
  no_nl inner = true ->
  all_ascii inner = true ->
  inner <> [] ->
  clean_text (pre ++ MARK ++ inner ++ MARK ++ post)
  = clean_text pre ++ inner ++ clean_text post.
Proof.
  intros Hp Hi Hn Ha Hne. rewrite !clean_text_eq.
  assert (Hpre : unbold pre = pre).
  { pose proof (unbold_marker_free pre [] Hp) as H.
    rewrite app_nil_r in H. rewrite H. apply app_nil_r. }
  rewrite (unbold_marker_free pre _ Hp), (unbold_span inner post Hn Hi), Hpre.
  rewrite !filter_app, (filter_ascii_id _ Ha).
  rewrite collapse_app_plain_l.
  - now rewrite (@collapse_plain_r inner _ Hn Hne).
  - destruct inner as [|c inner]; [contradiction|]. cbn [app head_nl].
    cbn in Hn. apply andb_true_iff in Hn as [Hc _]. now apply negb_true_iff.
  - destruct inner; [contradiction|discriminate].
Qed.

Lemma clean_text_unwraps_span_witness :
  clean_text (lit "A * b: " ++ MARK ++ lit "key *point*!" ++ MARK ++ lit " and **more**")
  = clean_text (lit "A * b: ") ++ lit "key *point*!" ++ clean_text (lit " and **more**").
Proof.
  apply clean_text_unwraps_span; solve [reflexivity | discriminate].
Defined.



(** ** The notes generator *)

(** C3, as the spec states it, fails: a double asterisk that has no partner
    on its line is not part of a wrapped span, and the pattern of line 15
    leaves it where it is. A wrapped span can be left as well, when the
    deletion of a character above 127 brings two asterisks together. *)
Lemma generate_notes_keeps_lone_marker :
  outcome (generate_notes (fun _ _ => Ok (lit "2 ** 3 = 8"))
             (lit "Hello world") (lit "Operating Systems (OS)"))
  = Ok (lit "2 ** 3 = 8") /\
  str_in MARK (lit "2 ** 3 = 8") = true /\
  outcome (generate_notes (fun _ _ => Ok (lit "*" ++ [233%N] ++ lit "*a**"))
             (lit "Hello world") (lit "Operating Systems (OS)"))
  = Ok (lit "**a**") /\
  has_span (lit "**a**") = true.
Proof. repeat split. Qed.

(** C3 (amended): for every string the language-model service returns, the
    notes generator gives that string normalised, which has no character
    above code point 127. The output has a span wrapped in double asterisks
    on one line if and only if the deletion of the characters above 127
    leaves one, which never happens for a returned string with all
    characters in 0..127. A double asterisk with no other marker on its
    line stays where it is: when no marker starts before it on its line and
    none closes it on the rest of the line, the output is the normalised
    text before it, the double asterisk, and the normalised text after
    it. *)
Theorem generate_notes_normalised generate_content transcript subject response :
  generate_content (lit "gemini-pro") (notes_prompt subject ++ transcript)
    = Ok response ->
  outcome (generate_notes generate_content transcript subject)
    = Ok (clean_text response) /\
  all_ascii (clean_text response) = true /\
  (has_span (clean_text response) = false <-> joins_markers response = false) /\
  (all_ascii response = true -> joins_markers response = false) /\
  (forall before p post,
     before = [] \/ (exists b, before = b ++ [NL]) ->
     marker_free p = true ->
     find_close post = None ->
     response = before ++ p ++ MARK ++ post ->
     clean_text response = clean_text (before ++ p) ++ MARK ++ clean_text post).
Proof.
  intros Hr. split; [|split; [|split; [|split]]].
  - unfold generate_notes, GenerativeModel_generate_content, bind, outcome.
    now rewrite Hr.
  - apply clean_text_all_ascii.
  - unfold joins_markers. rewrite clean_text_eq. split.
    + apply collapse_span_back.
    + apply collapse_no_span.
  - intros Ha. unfold joins_markers.
    rewrite (filter_ascii_id _ (unbold_all_ascii _ Ha)). apply unbold_no_span.
  - intros before p post Hb Hp Hpost ->. rewrite !clean_text_eq.
    assert (E : unbold (before ++ p ++ MARK ++ post)
                = unbold (before ++ p) ++ MARK ++ unbold post).
    { destruct Hb as [->|[b ->]].
      - cbn [app]. rewrite (unbold_marker_free p _ Hp), (unbold_lone_marker _ Hpost).
        now rewrite (unbold_marker_free_id _ Hp).
      - rewrite <- !app_assoc. cbn [app]. rewrite !unbold_app_nl.
        rewrite (unbold_marker_free p _ Hp), (unbold_lone_marker _ Hpost).
        rewrite (unbold_marker_free_id _ Hp). rewrite <- !app_assoc. reflexivity. }
    rewrite E, !filter_app. change (filter is_ascii MARK) with MARK.
    rewrite collapse_app_plain_l by (reflexivity || discriminate).
    now rewrite (@collapse_plain_r MARK _ eq_refl) by discriminate.
Qed.

Lemma generate_notes_normalised_witness :
  outcome (generate_notes (fun _ _ => Ok (lit "# **Paging**" ++ [NL; NL] ++ lit "- maps **pages** to frames"))
             (lit "Hello world") (lit "Operating Systems (OS)"))
  = Ok (lit "# Paging" ++ [NL] ++ lit "- maps pages to frames") /\
  has_span (lit "# Paging" ++ [NL] ++ lit "- maps pages to frames") = false.
Proof.
  destruct (@generate_notes_normalised
              (fun _ _ => Ok (lit "# **Paging**" ++ [NL; NL] ++ lit "- maps **pages** to frames"))
              (lit "Hello world") (lit "Operating Systems (OS)")
              (lit "# **Paging**" ++ [NL; NL] ++ lit "- maps **pages** to frames")
              eq_refl) as (H1 & _ & H3 & H4 & _).
  split; [exact H1|]. apply H3, H4. reflexivity.
Defined.

(** ** The transcript extractor *)

Example video_id_watch_url :
  video_id_of (lit "https://youtube.com/watch?v=abc123") = lit "abc123".
Proof. reflexivity. Qed.

Lemma video_id_no_marker url :
  str_in (lit "v=") url = false -> video_id_of url = url.
Proof.
  intros H. unfold video_id_of, str_split. now rewrite split_go_no_sep.
Qed.

Lemma extract_transcript_ok timing (get_transcript : str -> result (list (fragment timing)))
      url frags :
  get_transcript (video_id_of url) = Ok frags ->
  extract_transcript get_transcript url
  = ([CaptionRequest (video_id_of url)],
     Ok (str_join (lit " ") (map (fun entry => text entry) frags))).
Proof.
  intros H. unfold extract_transcript, try_except, bind,
    YouTubeTranscriptApi_get_transcript. fold (video_id_of url). now rewrite H.
Qed.

Lemma extract_transcript_raise timing (get_transcript : str -> result (list (fragment timing)))
      url e :
  get_transcript (video_id_of url) = Raise e ->
  extract_transcript get_transcript url
  = ([CaptionRequest (video_id_of url)],
     Ok (lit "Error fetching transcript: " ++ str_of_exn e)).
Proof.
  intros H. unfold extract_transcript, try_except, bind,
    YouTubeTranscriptApi_get_transcript. fold (video_id_of url). now rewrite H.
Qed.

(** C7: the extractor never raises. For every locator and every caption
    service its outcome is a string; and when the service raises [e], for a
    locator without the marker ["v="] too (the whole locator is then the
    identifier asked for), the string is ["Error fetching transcript: "]
    followed by the message of [e]. *)
Theorem extract_transcript_never_raises
        timing (get_transcript : str -> result (list (fragment timing))) url :
  (exists s, outcome (extract_transcript get_transcript url) = Ok s) /\
  (forall e, get_transcript (video_id_of url) = Raise e ->
     outcome (extract_transcript get_transcript url)
       = Ok (lit "Error fetching transcript: " ++ str_of_exn e) /\
     startswith (lit "Error fetching transcript:")
       (lit "Error fetching transcript: " ++ str_of_exn e) = true) /\
  (forall e, str_in (lit "v=") url = false -> get_transcript url = Raise e ->
     extract_transcript get_transcript url
       = ([CaptionRequest url],
          Ok (lit "Error fetching transcript: " ++ str_of_exn e))).
Proof.
  repeat split.
  - destruct (get_transcript (video_id_of url)) as [frags|e] eqn:E.
    + rewrite (extract_transcript_ok _ _ E). now eexists.
    + rewrite (extract_transcript_raise _ _ E). now eexists.
  - now rewrite (extract_transcript_raise _ _ H).
  - intros e Hno He. rewrite <- (video_id_no_marker _ Hno) in He.
    rewrite (extract_transcript_raise _ _ He).
    now rewrite (video_id_no_marker _ Hno).
Qed.

Lemma extract_transcript_never_raises_witness :
  extract_transcript
    (fun _ : str => @Raise (list (fragment unit)) (Exception (lit "no element found")))
    (lit "not a link")
  = ([CaptionRequest (lit "not a link")],
     Ok (lit "Error fetching transcript: no element found")).
Proof.
  apply (proj2 (proj2 (@extract_transcript_never_raises unit
           (fun _ => Raise (Exception (lit "no element found")))
           (lit "not a link")))
           (Exception (lit "no element found")));
    reflexivity.
Defined.

(** C8: when the caption service returns a sequence of fragments, the
    extractor gives their text fields in the order received with a single
    space between neighbours, which is what the spec calls TranscriptText;
    the timing fields have no part in it. *)
Theorem extract_transcript_joins_fragments
        timing (get_transcript : str -> result (list (fragment timing))) url frags :
  get_transcript (video_id_of url) = Ok frags ->
  outcome (extract_transcript get_transcript url)
    = Ok (space_joined (map (fun entry => text entry) frags)) /\
  (forall f1 f2, f1 <> [] -> f2 <> [] -> frags = f1 ++ f2 ->
     space_joined (map (fun entry => text entry) frags)
     = space_joined (map (fun entry => text entry) f1) ++ lit " "
       ++ space_joined (map (fun entry => text entry) f2)) /\
  (forall timing' (get_transcript' : str -> result (list (fragment timing'))) frags',
     get_transcript' (video_id_of url) = Ok frags' ->
     map (fun entry => text entry) frags' = map (fun entry => text entry) frags ->
     outcome (extract_transcript get_transcript' url)
     = outcome (extract_transcript get_transcript url)).
Proof.
  intros H. repeat split.
  - rewrite (extract_transcript_ok _ _ H). cbn [outcome snd].
    now rewrite space_joined_join.
  - intros f1 f2 H1 H2 ->. rewrite map_app, <- !space_joined_join.
    apply str_join_app; now destruct f1, f2.
  - intros timing' get' frags' H' Hm.
    rewrite (extract_transcript_ok _ _ H), (extract_transcript_ok _ _ H').
    cbn [outcome snd]. now rewrite Hm.
Qed.

Lemma extract_transcript_joins_fragments_witness :
  outcome (extract_transcript
             (fun _ => Ok [Fragment (lit "Hello") 0%N 2%N; Fragment (lit "world") 2%N 3%N])
             (lit "https://youtube.com/watch?v=abc123"))
  = Ok (lit "Hello world").
Proof.
  apply (proj1 (@extract_transcript_joins_fragments N
           (fun _ => Ok [Fragment (lit "Hello") 0%N 2%N; Fragment (lit "world") 2%N 3%N])
           (lit "https://youtube.com/watch?v=abc123")
           [Fragment (lit "Hello") 0%N 2%N; Fragment (lit "world") 2%N 3%N]
           eq_refl)).
Defined.

(** ** The document exporter *)

Lemma notes_line_eq pdf line :
  notes_line pdf line
  = MkFPDF (auto_page_break pdf) (cur_font pdf)
           (ops pdf ++ notes_line_ops (cur_font pdf) line).
Proof.
  unfold notes_line, notes_line_ops.
  destruct (truthy (strip line)).
  - destruct (startswith (lit "-") line || startswith (lit "*") line
              || startswith [BULLET] line);
      unfold multi_cell, cell; cbn [auto_page_break cur_font ops];
      now rewrite <- ?app_assoc.
  - rewrite app_nil_r. now destruct pdf.
Qed.

Lemma questions_line_eq dd pdf line :
  questions_line dd pdf line
  = MkFPDF (auto_page_break pdf) (cur_font pdf)
           (ops pdf ++ questions_line_ops dd (cur_font pdf) line).
Proof.
  unfold questions_line, questions_line_ops.
  destruct (truthy (strip line)).
  - destruct (re_match_numbered dd line);
      unfold multi_cell, ln; cbn [auto_page_break cur_font ops];
      now rewrite <- ?app_assoc.
  - rewrite app_nil_r. now destruct pdf.
Qed.

Lemma fold_notes_lines lines pdf :
  fold_left notes_line lines pdf
  = MkFPDF (auto_page_break pdf) (cur_font pdf)
           (ops pdf ++ flat_map (notes_line_ops (cur_font pdf)) lines).
Proof.
  revert pdf; induction lines as [|l lines IH]; intros pdf; cbn [fold_left flat_map].
  - rewrite app_nil_r. now destruct pdf.
  - rewrite IH, notes_line_eq. cbn [auto_page_break cur_font ops].
    now rewrite <- app_assoc.
Qed.

Lemma fold_questions_lines dd lines pdf :
  fold_left (questions_line dd) lines pdf
  = MkFPDF (auto_page_break pdf) (cur_font pdf)
           (ops pdf ++ flat_map (questions_line_ops dd (cur_font pdf)) lines).
Proof.
  revert pdf; induction lines as [|l lines IH]; intros pdf; cbn [fold_left flat_map].
  - rewrite app_nil_r. now destruct pdf.
  - rewrite IH, questions_line_eq. cbn [auto_page_break cur_font ops].
    now rewrite <- app_assoc.
Qed.

(** The call of [pdf.output] that [save_as_pdf] makes, and what is returned. *)
Lemma save_as_pdf_eq dd pdf_output notes questions subject :
  save_as_pdf dd pdf_output notes questions subject
  = ([FileWrite (subject ++ lit "_study_notes.pdf")
        (layout dd notes questions subject)],
     match pdf_output (subject ++ lit "_study_notes.pdf")
             (layout dd notes questions subject) with
     | Ok _ => Ok (subject ++ lit "_study_notes.pdf")
     | Raise e => Raise e
     end).
Proof.
  unfold save_as_pdf, layout.
  cbv beta iota zeta delta [FPDF_new set_auto_page_break add_page set_font
                            cell ln auto_page_break cur_font ops].
  rewrite fold_notes_lines.
  cbv beta iota zeta delta [auto_page_break cur_font ops].
  rewrite fold_questions_lines.
  cbv beta iota zeta delta [auto_page_break cur_font ops output emit bind ret].
  unfold regular, bold. cbn [app]. rewrite <- !app_assoc. cbn [app].
  match goal with
  | |- context [pdf_output ?n ?d] => destruct (pdf_output n d) as [u|e]
  end; reflexivity.
Qed.

Lemma printed_text_app l1 l2 :
  printed_text (l1 ++ l2) = printed_text l1 ++ printed_text l2.
Proof.
  induction l1 as [|o l1 IH]; [reflexivity|]. cbn [app printed_text].
  destruct o; rewrite IH; try reflexivity. now destruct (truthy txt).
Qed.

Lemma printed_notes_lines f lines :
  printed_text (flat_map (notes_line_ops f) lines)
  = map (fun l => Printed f l false) (filter nonblank lines).
Proof.
  induction lines as [|l lines IH]; [reflexivity|].
  cbn [flat_map filter]. rewrite printed_text_app, IH.
  unfold notes_line_ops, nonblank. destruct (truthy (strip l)); [|reflexivity].
  now destruct (startswith (lit "-") l || startswith (lit "*") l
                || startswith [BULLET] l).
Qed.

Lemma printed_questions_lines dd f lines :
  printed_text (flat_map (questions_line_ops dd f) lines)
  = map (fun l => Printed f l false) (filter nonblank lines).
Proof.
  induction lines as [|l lines IH]; [reflexivity|].
  cbn [flat_map filter]. rewrite printed_text_app, IH.
  unfold questions_line_ops, nonblank. destruct (truthy (strip l)); [|reflexivity].
  now destruct (re_match_numbered dd l).
Qed.

Lemma flat_map_nonblank (g : str -> list pdf_op) lines :
  (forall l, nonblank l = false -> g l = []) ->
  flat_map g lines = flat_map g (filter nonblank lines).
Proof.
  intros Hg. induction lines as [|l lines IH]; [reflexivity|].
  cbn [flat_map filter]. destruct (nonblank l) eqn:E.
  - cbn [flat_map]. now rewrite IH.
  - now rewrite (Hg _ E), IH.
Qed.

Lemma lstrip_nil s : lstrip s = [] <-> forallb is_space s = true.
Proof.
  induction s as [|c s IH]; cbn [lstrip forallb]; [tauto|].
  destruct (is_space c); cbn [andb]; [exact IH|]. split; discriminate.
Qed.

Lemma rstrip_nil s : rstrip s = [] <-> forallb is_space s = true.
Proof.
  unfold rstrip. split.
  - intros H. apply (f_equal (@rev char)) in H. rewrite rev_involutive in H.
    cbn in H. apply lstrip_nil in H. rewrite forallb_forall in *.
    intros c Hc. apply H, in_rev. now rewrite rev_involutive.
  - intros H. replace (lstrip (rev s)) with (@nil char); [reflexivity|].
    symmetry. apply lstrip_nil. rewrite forallb_forall in *.
    intros c Hc. now apply H, in_rev.
Qed.

Lemma lstrip_head s :
  match lstrip s with c :: _ => is_space c = false | [] => True end.
Proof.
  induction s as [|c s IH]; cbn [lstrip]; [exact I|].
  now destruct (is_space c) eqn:E.
Qed.

(** A line is dropped when it is empty or has only white space in it. *)
Lemma nonblank_spec line :
  nonblank line = false <-> forallb is_space line = true.
Proof.
  unfold nonblank, strip. rewrite <- lstrip_nil.
  pose proof (lstrip_head line) as Hh.
  destruct (lstrip line) as [|c r] eqn:E.
  - cbn. tauto.
  - split; [|discriminate]. intros H.
    assert (R : rstrip (c :: r) = []) by now destruct (rstrip (c :: r)).
    apply rstrip_nil in R. cbn in R. now rewrite Hh in R.
Qed.

Example blank_lines :
  nonblank [] = false /\ nonblank (lit "  " ++ [9%N; 160%N]) = false /\
  nonblank (lit " - a ") = true.
Proof. repeat split. Qed.

Lemma layout_printed dd notes questions subject :
  printed_text (ops (layout dd notes questions subject))
  = [Printed (bold 16) (lit "Study Notes on " ++ subject) true;
     Printed (bold 14) (lit "Detailed Notes") false]
    ++ map (fun l => Printed (regular 12) l false)
         (filter nonblank (str_split [NL] notes))
    ++ [Printed (bold 14) (lit "Placement Aptitude Questions") false]
    ++ map (fun l => Printed (regular 12) l false)
         (filter nonblank (str_split [NL] questions)).
Proof.
  unfold layout. cbn [ops].
  rewrite !printed_text_app, printed_notes_lines, printed_questions_lines.
  reflexivity.
Qed.

Example file_name_DBMS :
  outcome (save_as_pdf ascii_digit strict_output (lit "notes") (lit "1. q") (lit "DBMS"))
  = Ok (lit "DBMS_study_notes.pdf").
Proof. vm_compute. reflexivity. Qed.

(** C9, as the spec states it, fails: the call of [pdf.output] of line 112
    is inside no handler. For notes with a character that the encoding of
    the core fonts does not have, and for a subject that gives a name which
    cannot be written to, the call raises, no file is written and the
    exporter returns no name. *)
Lemma save_as_pdf_can_raise :
  outcome (save_as_pdf ascii_digit strict_output
             ([BULLET] ++ lit " item") (lit "1. q") (lit "DBMS"))
  = Raise (Exception (lit "UnicodeEncodeError")) /\
  outcome (save_as_pdf ascii_digit strict_output
             (lit "notes") (lit "1. q") (lit "OS/2"))
  = Raise (Exception (lit "FileNotFoundError")).
Proof. split; vm_compute; reflexivity. Qed.

(** C9 (amended): for every notes string, questions string and subject the
    exporter makes one call of [pdf.output], for the file named by the
    subject followed by ["_study_notes.pdf"]. The text of the document of
    that call is, in order: the title ["Study Notes on <subject>"], bold and
    centred; the bold heading ["Detailed Notes"]; the lines of the notes
    that are not blank; the bold heading ["Placement Aptitude Questions"];
    the lines of the questions that are not blank. When the call returns,
    the exporter returns the name of the file; when it raises, the exporter
    raises the same exception. *)
Theorem save_as_pdf_layout dd pdf_output notes questions subject :
  exists doc,
    trace (save_as_pdf dd pdf_output notes questions subject)
    = [FileWrite (subject ++ lit "_study_notes.pdf") doc] /\
    hd_error (ops doc) = Some AddPage /\
    printed_text (ops doc)
    = [Printed (bold 16) (lit "Study Notes on " ++ subject) true;
       Printed (bold 14) (lit "Detailed Notes") false]
      ++ map (fun l => Printed (regular 12) l false)
           (filter nonblank (str_split [NL] notes))
      ++ [Printed (bold 14) (lit "Placement Aptitude Questions") false]
      ++ map (fun l => Printed (regular 12) l false)
           (filter nonblank (str_split [NL] questions)) /\
    (pdf_output (subject ++ lit "_study_notes.pdf") doc = Ok tt ->
     outcome (save_as_pdf dd pdf_output notes questions subject)
     = Ok (subject ++ lit "_study_notes.pdf")) /\
    (forall e,
       pdf_output (subject ++ lit "_study_notes.pdf") doc = Raise e ->
       outcome (save_as_pdf dd pdf_output notes questions subject) = Raise e).
Proof.
  exists (layout dd notes questions subject). rewrite save_as_pdf_eq.
  cbn [trace outcome fst snd]. split; [reflexivity|]. split; [reflexivity|].
  split; [apply layout_printed|].
  split; [intros H|intros e H]; now rewrite H.
Qed.

Lemma save_as_pdf_layout_witness :
  outcome (save_as_pdf ascii_digit output_ok
             (lit "Paging" ++ [NL; NL] ++ lit "- frames") (lit "1. q") (lit "DBMS"))
  = Ok (lit "DBMS_study_notes.pdf").
Proof.
  destruct (save_as_pdf_layout ascii_digit output_ok
              (lit "Paging" ++ [NL; NL] ++ lit "- frames") (lit "1. q") (lit "DBMS"))
    as (doc & _ & _ & _ & H4 & _).
  apply H4. reflexivity.
Defined.

(** C10: a line of the notes or of the questions that is empty or has only
    white space adds nothing to the document, so the document is fixed by
    the lines that are not blank; and a line of the questions that is not
    blank adds its text, after a vertical move of 3 when it starts with
    digits and a full stop, and no other move. *)
Theorem save_as_pdf_drops_blank_lines dd pdf_output :
  (forall pdf line, forallb is_space line = true ->
     notes_line pdf line = pdf /\ questions_line dd pdf line = pdf) /\
  (forall notes notes' questions questions' subject,
     filter nonblank (str_split [NL] notes)
       = filter nonblank (str_split [NL] notes') ->
     filter nonblank (str_split [NL] questions)
       = filter nonblank (str_split [NL] questions') ->
     save_as_pdf dd pdf_output notes questions subject
       = save_as_pdf dd pdf_output notes' questions' subject) /\
  (forall pdf line, forallb is_space line = false ->
     ops (questions_line dd pdf line)
     = ops pdf ++ (if re_match_numbered dd line then [Ln 3] else [])
       ++ [MultiCell (cur_font pdf) 0 7 line]).
Proof.
  refine (conj _ (conj _ _)).
  - intros pdf line H. apply nonblank_spec in H. unfold nonblank in H.
    unfold notes_line, questions_line. now rewrite H.
  - intros notes notes' questions questions' subject Hn Hq.
    rewrite !save_as_pdf_eq.
    assert (E : layout dd notes questions subject
                = layout dd notes' questions' subject).
    { unfold layout.
      rewrite (flat_map_nonblank (notes_line_ops (regular 12)) (str_split [NL] notes)),
        (flat_map_nonblank (notes_line_ops (regular 12)) (str_split [NL] notes')),
        (flat_map_nonblank (questions_line_ops dd (regular 12)) (str_split [NL] questions)),
        (flat_map_nonblank (questions_line_ops dd (regular 12)) (str_split [NL] questions')).
      + now rewrite Hn, Hq.
      + intros l E. unfold questions_line_ops. unfold nonblank in E. now rewrite E.
      + intros l E. unfold questions_line_ops. unfold nonblank in E. now rewrite E.
      + intros l E. unfold notes_line_ops. unfold nonblank in E. now rewrite E.
      + intros l E. unfold notes_line_ops. unfold nonblank in E. now rewrite E. }
    now rewrite E.
  - intros pdf line H. rewrite questions_line_eq. cbn [ops].
    unfold questions_line_ops.
    assert (E : nonblank line = true).
    { destruct (nonblank line) eqn:E; [reflexivity|].
      apply nonblank_spec in E. now rewrite E in H. }
    unfold nonblank in E. now rewrite E.
Qed.

Lemma save_as_pdf_drops_blank_lines_witness :
  save_as_pdf ascii_digit strict_output
    (lit "Paging" ++ [NL] ++ lit "  " ++ [NL] ++ lit "- frames")
    ([NL] ++ lit "1. What is a page?" ++ [NL; 9%N; NL] ++ lit "2. What is a frame?")
    (lit "Operating Systems (OS)")
  = save_as_pdf ascii_digit strict_output
      (lit "Paging" ++ [NL] ++ lit "- frames")
      (lit "1. What is a page?" ++ [NL] ++ lit "2. What is a frame?")
      (lit "Operating Systems (OS)").
Proof.
  apply (proj1 (proj2 (save_as_pdf_drops_blank_lines ascii_digit strict_output)));
    vm_compute; reflexivity.
Defined.

(** ** The page handler *)

Lemma usable_iff t :
  truthy t && negb (str_in (lit "Error") t) = true <-> usable t.
Proof.
  unfold usable. rewrite andb_true_iff, negb_true_iff, <- str_in_spec.
  destruct t as [|c t]; cbn [truthy].
  - split; [intros [H _]; discriminate|intros [H _]; now contradiction H].
  - split; intros [_ H]; (split; [discriminate || reflexivity|]).
    + now rewrite H.
    + now destruct (str_in (lit "Error") (c :: t)).
Qed.

(** What the handler of the button does once the extractor has returned. *)
Lemma on_generate_eq timing (get_transcript : str -> result (list (fragment timing)))
      generate_content dd pdf_output open_rb subject link tr0 t :
  extract_transcript get_transcript link = (tr0, Ok t) ->
  on_generate get_transcript generate_content dd pdf_output open_rb subject link =
  if truthy t && negb (str_in (lit "Error") t) then
    match generate_content (lit "gemini-pro") (notes_prompt subject ++ t) with
    | Raise e =>
        (tr0 ++ [StSuccess ([9989%N] ++ lit " Transcript extracted successfully!");
                 LLMRequest (lit "gemini-pro") (notes_prompt subject ++ t)],
         Raise e)
    | Ok rn =>
        match generate_content (lit "gemini-pro") (questions_prompt subject) with
        | Raise e =>
            (tr0 ++ [StSuccess ([9989%N] ++ lit " Transcript extracted successfully!");
                     LLMRequest (lit "gemini-pro") (notes_prompt subject ++ t);
                     StMarkdown (lit "## " ++ [128218%N] ++ lit " Detailed Notes:");
                     StWrite (clean_text rn);
                     LLMRequest (lit "gemini-pro") (questions_prompt subject)],
             Raise e)
        | Ok rq =>
            match pdf_output (subject ++ lit "_study_notes.pdf")
                    (layout dd (clean_text rn) (clean_text rq) subject) with
            | Raise e =>
                (tr0 ++ [StSuccess ([9989%N] ++ lit " Transcript extracted successfully!");
                         LLMRequest (lit "gemini-pro") (notes_prompt subject ++ t);
                         StMarkdown (lit "## " ++ [128218%N] ++ lit " Detailed Notes:");
                         StWrite (clean_text rn);
                         LLMRequest (lit "gemini-pro") (questions_prompt subject);
                         StMarkdown (lit "## " ++ [127919%N]
                                     ++ lit " Possible Placement Aptitude Questions:");
                         StWrite (clean_text rq);
                         FileWrite (subject ++ lit "_study_notes.pdf")
                           (layout dd (clean_text rn) (clean_text rq) subject)],
                 Raise e)
            | Ok _ =>
                match open_rb (subject ++ lit "_study_notes.pdf") with
                | Raise e =>
                    (tr0 ++ [StSuccess ([9989%N] ++ lit " Transcript extracted successfully!");
                         LLMRequest (lit "gemini-pro") (notes_prompt subject ++ t);
                         StMarkdown (lit "## " ++ [128218%N] ++ lit " Detailed Notes:");
                         StWrite (clean_text rn);
                         LLMRequest (lit "gemini-pro") (questions_prompt subject);
                         StMarkdown (lit "## " ++ [127919%N]
                                     ++ lit " Possible Placement Aptitude Questions:");
                         StWrite (clean_text rq);
                         FileWrite (subject ++ lit "_study_notes.pdf")
                           (layout dd (clean_text rn) (clean_text rq) subject)],
                     Raise e)
                | Ok _ =>
                    (tr0 ++ [StSuccess ([9989%N] ++ lit " Transcript extracted successfully!");
                         LLMRequest (lit "gemini-pro") (notes_prompt subject ++ t);
                         StMarkdown (lit "## " ++ [128218%N] ++ lit " Detailed Notes:");
                         StWrite (clean_text rn);
                         LLMRequest (lit "gemini-pro") (questions_prompt subject);
                         StMarkdown (lit "## " ++ [127919%N]
                                     ++ lit " Possible Placement Aptitude Questions:");
                         StWrite (clean_text rq);
                         FileWrite (subject ++ lit "_study_notes.pdf")
                           (layout dd (clean_text rn) (clean_text rq) subject);
                         StDownloadButton ([128229%N] ++ lit " Download Notes as PDF")
                           (subject ++ lit "_study_notes.pdf")
                           (subject ++ lit "_study_notes.pdf")
                           (lit "application/pdf")],
                     Ok tt)
                end
            end
        end
    end
  else (tr0 ++ [StError failure_message], Ok tt).
Proof.
  intros Hex. unfold on_generate. rewrite Hex. unfold bind at 1.
  destruct (truthy t && negb (str_in (lit "Error") t)); [|reflexivity].
  unfold generate_notes, generate_aptitude_questions,
    GenerativeModel_generate_content.
  destruct (generate_content (lit "gemini-pro") (notes_prompt subject ++ t))
    as [rn|e]; [|reflexivity].
  destruct (generate_content (lit "gemini-pro") (questions_prompt subject))
    as [rq|e]; [|reflexivity].
  cbv beta iota zeta delta [bind emit ret].
  rewrite save_as_pdf_eq. unfold open_file.
  destruct (pdf_output (subject ++ lit "_study_notes.pdf")
              (layout dd (clean_text rn) (clean_text rq) subject)) as [u|e];
    [|reflexivity].
  destruct (open_rb (subject ++ lit "_study_notes.pdf")) as [u'|e]; reflexivity.
Qed.

Ltac absent H :=
  cbn [In app] in H;
  repeat (destruct H as [H|H]; [discriminate H|]);
  try contradiction.

Example gate_rejects_error_word :
  on_generate
    (fun _ => Ok [Fragment (lit "Error handling in Java") 0%N 4%N])
    (fun _ _ => Ok (lit "notes")) ascii_digit strict_output open_ok
    (lit "Object-Oriented Programming (OOPS)")
    (lit "https://youtube.com/watch?v=abc123")
  = ([CaptionRequest (lit "abc123"); StError failure_message], Ok tt).
Proof. reflexivity. Qed.

Example gate_rejects_empty_transcript :
  on_generate
    (fun _ => Ok (@nil (fragment N)))
    (fun _ _ => Ok (lit "notes")) ascii_digit strict_output open_ok
    (lit "Computer Networks (CN)")
    (lit "https://youtube.com/watch?v=abc123")
  = ([CaptionRequest (lit "abc123"); StError failure_message], Ok tt).
Proof. reflexivity. Qed.

Example end_to_end :
  let run :=
    main (fun _ => Ok [Fragment (lit "Hello") 0%N 2%N; Fragment (lit "world") 2%N 3%N])
         (fun _ prompt =>
            if str_in (lit "Structured Study Notes") prompt
            then Ok (lit "## **Processes**" ++ [NL; NL] ++ lit "- a program in execution")
            else Ok (lit "1. What is a process?"))
         ascii_digit strict_output open_ok
         (lit "Operating Systems (OS)")
         (lit "https://youtube.com/watch?v=abc123") true in
  outcome run = Ok tt /\
  In (StWrite (lit "## Processes" ++ [NL] ++ lit "- a program in execution"))
     (trace run) /\
  In (StDownloadButton ([128229%N] ++ lit " Download Notes as PDF")
        (lit "Operating Systems (OS)_study_notes.pdf")
        (lit "Operating Systems (OS)_study_notes.pdf")
        (lit "application/pdf"))
     (trace run).
Proof. vm_compute. intuition. Qed.

(** C2: once the extractor has returned the string [t], the handler goes on
    to the notes request if and only if [t] is not empty and does not have
    ["Error"] in it. In that case no failure message is shown and, when the
    language-model service answers both requests, the questions request and
    the write of the file follow. In the other case the failure message is
    the one thing that happens and nothing is raised; this is so for every
    [t] with ["Error"] anywhere in it. *)
Theorem transcript_gate timing (get_transcript : str -> result (list (fragment timing)))
        generate_content dd pdf_output open_rb subject link tr0 t :
  extract_transcript get_transcript link = (tr0, Ok t) ->
  exists later,
    trace (on_generate get_transcript generate_content dd pdf_output open_rb
             subject link)
      = tr0 ++ later /\
    (usable t <->
     In (LLMRequest (lit "gemini-pro") (notes_prompt subject ++ t)) later) /\
    (usable t -> forall m, ~ In (StError m) later) /\
    (usable t -> forall rn rq,
       generate_content (lit "gemini-pro") (notes_prompt subject ++ t) = Ok rn ->
       generate_content (lit "gemini-pro") (questions_prompt subject) = Ok rq ->
       In (LLMRequest (lit "gemini-pro") (questions_prompt subject)) later /\
       exists doc, In (FileWrite (subject ++ lit "_study_notes.pdf") doc) later) /\
    (~ usable t ->
       later = [StError failure_message] /\
       outcome (on_generate get_transcript generate_content dd pdf_output open_rb
                  subject link)
         = Ok tt) /\
    (has_substring (lit "Error") t -> later = [StError failure_message]).
Proof.
  intros Hex.
  rewrite (on_generate_eq _ generate_content dd pdf_output open_rb subject _ Hex).
  pose proof (usable_iff t) as Hu.
  destruct (truthy t && negb (str_in (lit "Error") t)).
  - assert (U : usable t) by now apply Hu.
    destruct (generate_content (lit "gemini-pro") (notes_prompt subject ++ t))
      as [rn|e];
      [destruct (generate_content (lit "gemini-pro") (questions_prompt subject))
        as [rq|e];
        [destruct (pdf_output (subject ++ lit "_study_notes.pdf")
                     (layout dd (clean_text rn) (clean_text rq) subject)) as [u|e];
          [destruct (open_rb (subject ++ lit "_study_notes.pdf")) as [u'|e]|]|]|];
      eexists; (split; [reflexivity|]);
      (refine (conj _ (conj _ (conj _ (conj _ _))));
      [ split; [intros _; right; left; reflexivity|trivial]
      | intros _ m H; absent H
      | intros _ rn' rq' Hn' Hq';
        first [discriminate Hn' | discriminate Hq'
              | split; [do 4 right; left; reflexivity
                       | eexists; do 7 right; left; reflexivity]]
      | intros H; contradiction
      | intros H; now destruct U ]).
  - assert (U : ~ usable t) by (intros U; apply Hu in U; discriminate).
    eexists; (split; [reflexivity|]);
      refine (conj _ (conj _ (conj _ (conj _ _)))).
    + split; [intros H; contradiction|intros [H|[]]; discriminate H].
    + intros H. contradiction.
    + intros H. contradiction.
    + intros _. split; reflexivity.
    + intros _. reflexivity.
Qed.

Lemma transcript_gate_witness :
  exists later,
    trace (on_generate
             (fun _ => Ok [Fragment (lit "Hello") 0%N 2%N; Fragment (lit "world") 2%N 3%N])
             (fun _ _ => Ok (lit "1. What is a process?")) ascii_digit
             output_ok open_ok
             (lit "Operating Systems (OS)")
             (lit "https://youtube.com/watch?v=abc123"))
    = [CaptionRequest (lit "abc123")] ++ later /\
    In (LLMRequest (lit "gemini-pro")
          (notes_prompt (lit "Operating Systems (OS)") ++ lit "Hello world"))
       later.
Proof.
  destruct (@transcript_gate N
              (fun _ => Ok [Fragment (lit "Hello") 0%N 2%N; Fragment (lit "world") 2%N 3%N])
              (fun _ _ => Ok (lit "1. What is a process?")) ascii_digit
              output_ok open_ok
              (lit "Operating Systems (OS)")
              (lit "https://youtube.com/watch?v=abc123")
              [CaptionRequest (lit "abc123")] (lit "Hello world") eq_refl)
    as (later & H1 & H2 & _).
  exists later. split; [exact H1|]. apply H2. split; [discriminate|].
  intros H. apply str_in_spec in H. discriminate H.
Defined.

(** * Further properties of the code *)

(** ** Fixed points of the normaliser *)

(** X1: the normaliser only deletes characters: its output is the input
    with some characters left out, in the same order, so it is never longer
    than the input and has no character the input does not have. *)
Theorem clean_text_only_deletes x :
  subseq (clean_text x) x /\
  length (clean_text x) <= length x /\
  (forall c, In c (clean_text x) -> In c x).
Proof.
  assert (H : subseq (clean_text x) x).
  { rewrite clean_text_eq.
    apply (subseq_trans (collapse_subseq _)).
    apply (subseq_trans (filter_subseq _ _)). apply unbold_subseq. }
  split; [exact H|]. split; [now apply subseq_length|].
  intros c. now apply subseq_In.
Qed.

(** X2: the strings that the normaliser leaves as they are, are the strings
    with all characters in 0..127, no span wrapped in double asterisks on
    one line and no two newlines in a row. *)
Theorem clean_text_fixed_points x :
  clean_text x = x <->
  all_ascii x = true /\ has_span x = false /\ str_in [NL; NL] x = false.
Proof.
  split.
  - intros H. split; [|split].
    + rewrite <- H. apply clean_text_all_ascii.
    + destruct (has_span x) eqn:E; [|reflexivity].
      pose proof (proj2 (unbold_shorter x) E) as L1.
      pose proof (subseq_length
                    (subseq_trans (collapse_subseq _)
                       (filter_subseq is_ascii (unbold x)))) as L2.
      rewrite <- clean_text_eq, H in L2. lia.
    + rewrite <- H, clean_text_eq. apply no_double_nl_collapse.
  - intros (Ha & Hs & Hn). rewrite clean_text_eq.
    rewrite (unbold_fixed _ Hs), (filter_ascii_id _ Ha).
    now apply collapse_fixed.
Qed.

Lemma clean_text_fixed_points_witness :
  clean_text (lit "a * b" ++ [NL] ++ lit "c ** d") = lit "a * b" ++ [NL] ++ lit "c ** d".
Proof.
  apply (proj2 (clean_text_fixed_points (lit "a * b" ++ [NL] ++ lit "c ** d"))).
  repeat split.
Defined.

(** ** Splitting *)

Lemma split_go_nonempty sep k cur s : split_go sep k cur s <> [].
Proof.
  revert k cur; induction s as [|c s IH]; intros k cur; cbn [split_go];
    [discriminate|].
  destruct k; [|apply IH]. destruct (startswith sep (c :: s)); [discriminate|apply IH].
Qed.

Lemma last_cons_nonempty (x : str) l : l <> [] -> last (x :: l) [] = last l [].
Proof. now destruct l. Qed.

Lemma startswith_v_eq_cons c s :
  startswith (lit "v=") (c :: s) =
  (118 =? c)%N && match s with d :: _ => (61 =? d)%N | [] => false end.
Proof. destruct s; cbn; now rewrite ?andb_true_r. Qed.

Lemma split_go_v_eq_cons cur c s :
  split_go (lit "v=") 0 cur (c :: s) =
  if startswith (lit "v=") (c :: s)
  then cur :: split_go (lit "v=") 0 [] (tl s)
  else split_go (lit "v=") 0 (cur ++ [c]) s.
Proof.
  cbn [split_go]. destruct (startswith (lit "v=") (c :: s)) eqn:E; [|reflexivity].
  rewrite startswith_v_eq_cons in E.
  destruct s as [|d s]; [now rewrite andb_false_r in E|]. reflexivity.
Qed.

Lemma video_id_last n :
  forall pre cur id, length pre <= n ->
  str_in (lit "v=") id = false ->
  last (split_go (lit "v=") 0 cur (pre ++ lit "v=" ++ id)) [] = id.
Proof.
  induction n as [|n IH]; intros pre cur id Hn Hid.
  - destruct pre; [|cbn in Hn; lia].
    change ([] ++ lit "v=" ++ id) with (118%N :: 61%N :: id).
    rewrite split_go_v_eq_cons. cbn [startswith lit]. 
    change (startswith (lit "v=") (118%N :: 61%N :: id)) with true. cbv iota.
    cbn [tl]. rewrite last_cons_nonempty by apply split_go_nonempty.
    now rewrite split_go_no_sep.
  - destruct pre as [|c pre]; [apply (IH [] cur id); [cbn; lia|exact Hid]|].
    cbn [length] in Hn. cbn [app]. rewrite split_go_v_eq_cons.
    destruct (startswith (lit "v=") (c :: pre ++ lit "v=" ++ id)) eqn:E.
    + rewrite startswith_v_eq_cons in E. apply andb_true_iff in E as [_ E].
      destruct pre as [|d pre]; [discriminate E|]. cbn [app tl].
      rewrite last_cons_nonempty by apply split_go_nonempty.
      apply IH; [cbn [length] in Hn; lia|exact Hid].
    + apply IH; [lia|exact Hid].
Qed.

(** X3: the identifier taken from a locator is the text after its last
    ["v="]: for every locator [pre ++ "v=" ++ id] in which [id] has no
    ["v="], the identifier is [id], whatever [pre] is. Anything that follows
    the identifier in the locator is part of it. *)
Theorem video_id_after_last_marker pre id :
  str_in (lit "v=") id = false ->
  video_id_of (pre ++ lit "v=" ++ id) = id.
Proof.
  intros H. unfold video_id_of, last_item, str_split.
  now apply (video_id_last (n := length pre)).
Qed.

Lemma video_id_after_last_marker_witness :
  video_id_of (lit "https://www.youtube.com/watch?list=v=1&v=" ++ lit "v="
               ++ lit "dQw4w9WgXcQ&t=42s")
  = lit "dQw4w9WgXcQ&t=42s".
Proof. apply video_id_after_last_marker. reflexivity. Defined.

Lemma split_go_nl_cons cur c s :
  split_go [NL] 0 cur (c :: s) =
  if is_nl c then cur :: split_go [NL] 0 [] s
  else split_go [NL] 0 (cur ++ [c]) s.
Proof.
  cbn [split_go startswith length Nat.sub]. unfold is_nl.
  rewrite (N.eqb_sym NL c), andb_true_r. reflexivity.
Qed.

Lemma split_go_nl_join cur s :
  str_join [NL] (split_go [NL] 0 cur s) = cur ++ s.
Proof.
  revert cur; induction s as [|c s IH]; intros cur.
  - cbn. now rewrite app_nil_r.
  - rewrite split_go_nl_cons. destruct (is_nl c) eqn:E.
    + apply is_nl_eq in E; subst c.
      destruct (split_go [NL] 0 [] s) as [|l ls] eqn:El;
        [now apply split_go_nonempty in El|].
      rewrite str_join_cons, <- El, IH. reflexivity.
    + rewrite IH. now rewrite <- app_assoc.
Qed.

Lemma split_go_nl_count cur s :
  length (split_go [NL] 0 cur s) = S (length (filter is_nl s)).
Proof.
  revert cur; induction s as [|c s IH]; intros cur; [reflexivity|].
  rewrite split_go_nl_cons. cbn [filter].
  destruct (is_nl c); cbn [length]; now rewrite IH.
Qed.

Lemma split_go_nl_no_nl cur s :
  no_nl cur = true ->
  Forall (fun l => no_nl l = true) (split_go [NL] 0 cur s).
Proof.
  revert cur; induction s as [|c s IH]; intros cur Hc.
  - now constructor.
  - rewrite split_go_nl_cons. destruct (is_nl c) eqn:E.
    + constructor; [exact Hc|]. now apply IH.
    + apply IH. unfold no_nl in *. rewrite forallb_app, Hc. cbn. now rewrite E.
Qed.

Lemma split_go_nl_all_ascii cur s :
  all_ascii cur = true -> all_ascii s = true ->
  Forall (fun l => all_ascii l = true) (split_go [NL] 0 cur s).
Proof.
  unfold all_ascii.
  revert cur; induction s as [|c s IH]; intros cur Hc Hs.
  - now constructor.
  - cbn [forallb] in Hs. apply andb_true_iff in Hs as [H1 H2].
    rewrite split_go_nl_cons. destruct (is_nl c).
    + constructor; [exact Hc|]. now apply IH.
    + apply IH; [|exact H2]. rewrite forallb_app, Hc. cbn. now rewrite H1.
Qed.

(** X4: the split of a body into lines loses nothing: the lines joined by
    newlines give the body back, there is one line more than the body has
    newlines, and no line has a newline in it. *)
Theorem str_split_lines s :
  str_join [NL] (str_split [NL] s) = s /\
  length (str_split [NL] s) = S (length (filter is_nl s)) /\
  Forall (fun l => no_nl l = true) (str_split [NL] s).
Proof.
  unfold str_split. split; [apply split_go_nl_join|].
  split; [apply split_go_nl_count|now apply split_go_nl_no_nl].
Qed.

(** ** The question generator *)

(** X5: the question generator makes one request, whose prompt is fixed by
    the subject. When the service answers, the result is the answer
    normalised: it has no character above 127 and, for an answer with all
    characters in 0..127, no span wrapped in double asterisks on one line.
    When the service raises, the exception is not caught. *)
Theorem generate_aptitude_questions_result generate_content subject :
  trace (generate_aptitude_questions generate_content subject)
    = [LLMRequest (lit "gemini-pro") (questions_prompt subject)] /\
  (forall response,
     generate_content (lit "gemini-pro") (questions_prompt subject) = Ok response ->
     outcome (generate_aptitude_questions generate_content subject)
       = Ok (clean_text response) /\
     all_ascii (clean_text response) = true /\
     (all_ascii response = true -> has_span (clean_text response) = false)) /\
  (forall e,
     generate_content (lit "gemini-pro") (questions_prompt subject) = Raise e ->
     outcome (generate_aptitude_questions generate_content subject) = Raise e).
Proof.
  unfold generate_aptitude_questions, GenerativeModel_generate_content,
    bind, ret, trace, outcome.
  destruct (generate_content (lit "gemini-pro") (questions_prompt subject))
    as [r|e]; cbn [fst snd]; (split; [now rewrite ?app_nil_r|]); split;
    intros x Hx; try discriminate Hx.
  - injection Hx as <-. split; [reflexivity|].
    split; [apply clean_text_all_ascii|]. intros Ha.
    rewrite clean_text_eq, (filter_ascii_id _ (unbold_all_ascii _ Ha)).
    apply collapse_no_span, unbold_no_span.
  - now injection Hx as <-.
Qed.

Lemma generate_aptitude_questions_result_witness :
  outcome (generate_aptitude_questions
             (fun _ _ => Ok (lit "1. **What** is a deadlock?" ++ [NL; NL]
                             ++ lit "2. Define paging."))
             (lit "Operating Systems (OS)"))
  = Ok (lit "1. What is a deadlock?" ++ [NL] ++ lit "2. Define paging.").
Proof.
  apply (proj1 (proj2 (generate_aptitude_questions_result
           (fun _ _ => Ok (lit "1. **What** is a deadlock?" ++ [NL; NL]
                           ++ lit "2. Define paging."))
           (lit "Operating Systems (OS)")))
           (lit "1. **What** is a deadlock?" ++ [NL; NL] ++ lit "2. Define paging.")
           eq_refl).
Defined.

(** ** The runs of the handler *)

Lemma extract_transcript_total timing
      (get_transcript : str -> result (list (fragment timing))) url :
  exists t,
    extract_transcript get_transcript url
    = ([CaptionRequest (video_id_of url)], Ok t).
Proof.
  destruct (get_transcript (video_id_of url)) as [frags|e] eqn:E.
  - rewrite (extract_transcript_ok _ _ E). now eexists.
  - rewrite (extract_transcript_raise _ _ E). now eexists.
Qed.

Lemma error_string_not_usable m :
  truthy (lit "Error fetching transcript: " ++ m)
  && negb (str_in (lit "Error") (lit "Error fetching transcript: " ++ m)) = false.
Proof. reflexivity. Qed.

(** The six ways a run of the handler can go. *)
Lemma on_generate_cases timing
      (get_transcript : str -> result (list (fragment timing)))
      generate_content dd pdf_output open_rb subject link :
  on_generate get_transcript generate_content dd pdf_output open_rb subject link
  = ([CaptionRequest (video_id_of link); StError failure_message], Ok tt)
  \/
  (exists t e,
     generate_content (lit "gemini-pro") (notes_prompt subject ++ t) = Raise e /\
     on_generate get_transcript generate_content dd pdf_output open_rb subject link
     = ([CaptionRequest (video_id_of link);
         StSuccess ([9989%N] ++ lit " Transcript extracted successfully!");
         LLMRequest (lit "gemini-pro") (notes_prompt subject ++ t)],
        Raise e))
  \/
  (exists t rn e,
     generate_content (lit "gemini-pro") (questions_prompt subject) = Raise e /\
     on_generate get_transcript generate_content dd pdf_output open_rb subject link
     = ([CaptionRequest (video_id_of link);
         StSuccess ([9989%N] ++ lit " Transcript extracted successfully!");
         LLMRequest (lit "gemini-pro") (notes_prompt subject ++ t);
         StMarkdown (lit "## " ++ [128218%N] ++ lit " Detailed Notes:");
         StWrite (clean_text rn);
         LLMRequest (lit "gemini-pro") (questions_prompt subject)],
        Raise e))
  \/
  (exists t rn rq e,
     pdf_output (subject ++ lit "_study_notes.pdf")
       (layout dd (clean_text rn) (clean_text rq) subject) = Raise e /\
     on_generate get_transcript generate_content dd pdf_output open_rb subject link
     = ([CaptionRequest (video_id_of link);
         StSuccess ([9989%N] ++ lit " Transcript extracted successfully!");
         LLMRequest (lit "gemini-pro") (notes_prompt subject ++ t);
         StMarkdown (lit "## " ++ [128218%N] ++ lit " Detailed Notes:");
         StWrite (clean_text rn);
         LLMRequest (lit "gemini-pro") (questions_prompt subject);
         StMarkdown (lit "## " ++ [127919%N]
                     ++ lit " Possible Placement Aptitude Questions:");
         StWrite (clean_text rq);
         FileWrite (subject ++ lit "_study_notes.pdf")
           (layout dd (clean_text rn) (clean_text rq) subject)],
        Raise e))
  \/
  (exists t rn rq e,
     pdf_output (subject ++ lit "_study_notes.pdf")
       (layout dd (clean_text rn) (clean_text rq) subject) = Ok tt /\
     open_rb (subject ++ lit "_study_notes.pdf") = Raise e /\
     on_generate get_transcript generate_content dd pdf_output open_rb subject link
     = ([CaptionRequest (video_id_of link);
         StSuccess ([9989%N] ++ lit " Transcript extracted successfully!");
         LLMRequest (lit "gemini-pro") (notes_prompt subject ++ t);
         StMarkdown (lit "## " ++ [128218%N] ++ lit " Detailed Notes:");
         StWrite (clean_text rn);
         LLMRequest (lit "gemini-pro") (questions_prompt subject);
         StMarkdown (lit "## " ++ [127919%N]
                     ++ lit " Possible Placement Aptitude Questions:");
         StWrite (clean_text rq);
         FileWrite (subject ++ lit "_study_notes.pdf")
           (layout dd (clean_text rn) (clean_text rq) subject)],
        Raise e))
  \/
  (exists t rn rq,
     on_generate get_transcript generate_content dd pdf_output open_rb subject link
     = ([CaptionRequest (video_id_of link);
         StSuccess ([9989%N] ++ lit " Transcript extracted successfully!");
         LLMRequest (lit "gemini-pro") (notes_prompt subject ++ t);
         StMarkdown (lit "## " ++ [128218%N] ++ lit " Detailed Notes:");
         StWrite (clean_text rn);
         LLMRequest (lit "gemini-pro") (questions_prompt subject);
         StMarkdown (lit "## " ++ [127919%N]
                     ++ lit " Possible Placement Aptitude Questions:");
         StWrite (clean_text rq);
         FileWrite (subject ++ lit "_study_notes.pdf")
           (layout dd (clean_text rn) (clean_text rq) subject);
         StDownloadButton ([128229%N] ++ lit " Download Notes as PDF")
           (subject ++ lit "_study_notes.pdf")
           (subject ++ lit "_study_notes.pdf")
           (lit "application/pdf")],
        Ok tt)).
Proof.
  destruct (extract_transcript_total get_transcript link) as [t Hex].
  rewrite (on_generate_eq _ generate_content dd pdf_output open_rb subject _ Hex).
  destruct (truthy t && negb (str_in (lit "Error") t)); [|now left].
  destruct (generate_content (lit "gemini-pro") (notes_prompt subject ++ t))
    as [rn|e] eqn:En; [|right; left; now exists t, e].
  destruct (generate_content (lit "gemini-pro") (questions_prompt subject))
    as [rq|e] eqn:Eq; [|right; right; left; now exists t, rn, e].
  destruct (pdf_output (subject ++ lit "_study_notes.pdf")
              (layout dd (clean_text rn) (clean_text rq) subject))
    as [[]|e] eqn:Eo; [|do 3 right; left; now exists t, rn, rq, e].
  destruct (open_rb (subject ++ lit "_study_notes.pdf"))
    as [[]|e] eqn:Ep; [|do 4 right; left; now exists t, rn, rq, e].
  do 5 right. now exists t, rn, rq.
Qed.

(** X6: when the caption service raises, whatever the message of the
    exception, or returns a track without fragments, the handler shows the
    failure message and does nothing else: no request to the language
    model, no file, and nothing raised. *)
Theorem caption_failure_shows_message timing
        (get_transcript : str -> result (list (fragment timing)))
        generate_content dd pdf_output open_rb subject link :
  (exists e, get_transcript (video_id_of link) = Raise e) \/
  get_transcript (video_id_of link) = Ok [] ->
  on_generate get_transcript generate_content dd pdf_output open_rb subject link
  = ([CaptionRequest (video_id_of link); StError failure_message], Ok tt).
Proof.
  intros [[e H]|H].
  - rewrite (on_generate_eq _ generate_content dd pdf_output open_rb subject _
               (extract_transcript_raise _ _ H)).
    now rewrite error_string_not_usable.
  - rewrite (on_generate_eq _ generate_content dd pdf_output open_rb subject _
               (extract_transcript_ok _ _ H)).
    reflexivity.
Qed.

Lemma caption_failure_shows_message_witness :
  on_generate
    (fun _ : str => @Raise (list (fragment unit))
                      (Exception (lit "Subtitles are disabled for this video")))
    (fun _ _ => Ok (lit "notes")) ascii_digit output_ok open_ok
    (lit "Computer Networks (CN)") (lit "https://youtu.be/abc123")
  = ([CaptionRequest (lit "https://youtu.be/abc123"); StError failure_message],
     Ok tt).
Proof.
  apply (@caption_failure_shows_message unit
           (fun _ => Raise (Exception (lit "Subtitles are disabled for this video")))
           (fun _ _ => Ok (lit "notes")) ascii_digit output_ok open_ok
           (lit "Computer Networks (CN)") (lit "https://youtu.be/abc123")).
  left. eexists. reflexivity.
Defined.

(** X7: a failure of the language-model service is not caught. When the
    notes request raises, the run ends with that exception right after the
    request. When the questions request raises, the run ends with that
    exception after the notes have been shown. In both cases no file is
    written and no download button is shown. *)
Theorem llm_failure_propagates timing
        (get_transcript : str -> result (list (fragment timing)))
        generate_content dd pdf_output open_rb subject link frags :
  get_transcript (video_id_of link) = Ok frags ->
  usable (str_join (lit " ") (map (fun entry => text entry) frags)) ->
  let t := str_join (lit " ") (map (fun entry => text entry) frags) in
  let run := on_generate get_transcript generate_content dd pdf_output open_rb subject link in
  (forall e,
     generate_content (lit "gemini-pro") (notes_prompt subject ++ t) = Raise e ->
     run = ([CaptionRequest (video_id_of link);
             StSuccess ([9989%N] ++ lit " Transcript extracted successfully!");
             LLMRequest (lit "gemini-pro") (notes_prompt subject ++ t)],
            Raise e)) /\
  (forall rn e,
     generate_content (lit "gemini-pro") (notes_prompt subject ++ t) = Ok rn ->
     generate_content (lit "gemini-pro") (questions_prompt subject) = Raise e ->
     outcome run = Raise e /\
     In (StWrite (clean_text rn)) (trace run) /\
     (forall name doc, ~ In (FileWrite name doc) (trace run)) /\
     (forall l d f m, ~ In (StDownloadButton l d f m) (trace run))).
Proof.
  intros Hg Hu t run. subst run.
  rewrite (on_generate_eq _ generate_content dd pdf_output open_rb subject _
             (extract_transcript_ok _ _ Hg)).
  fold t. apply usable_iff in Hu. fold t in Hu. rewrite Hu. split.
  - intros e He. now rewrite He.
  - intros rn e Hn Hq. rewrite Hn, Hq. cbn [outcome trace fst snd app].
    split; [reflexivity|]. split; [do 4 right; left; reflexivity|].
    split; intros; intros H; cbn [In] in H;
      repeat (destruct H as [H|H]; [discriminate H|]); exact H.
Qed.

Lemma llm_failure_propagates_witness :
  on_generate
    (fun _ => Ok [Fragment (lit "Hello") 0%N 2%N; Fragment (lit "world") 2%N 3%N])
    (fun _ _ => Raise (Exception (lit "quota exceeded"))) ascii_digit output_ok open_ok
    (lit "Operating Systems (OS)") (lit "https://youtube.com/watch?v=abc123")
  = ([CaptionRequest (lit "abc123");
      StSuccess ([9989%N] ++ lit " Transcript extracted successfully!");
      LLMRequest (lit "gemini-pro")
        (notes_prompt (lit "Operating Systems (OS)") ++ lit "Hello world")],
     Raise (Exception (lit "quota exceeded"))).
Proof.
  refine (proj1 (@llm_failure_propagates N
           (fun _ => Ok [Fragment (lit "Hello") 0%N 2%N; Fragment (lit "world") 2%N 3%N])
           (fun _ _ => Raise (Exception (lit "quota exceeded"))) ascii_digit output_ok open_ok
           (lit "Operating Systems (OS)") (lit "https://youtube.com/watch?v=abc123")
           [Fragment (lit "Hello") 0%N 2%N; Fragment (lit "world") 2%N 3%N]
           eq_refl _) (Exception (lit "quota exceeded")) eq_refl).
  split; [discriminate|]. intros H. apply str_in_spec in H. discriminate H.
Defined.

(** ** The page *)

Lemma main_eq timing (get_transcript : str -> result (list (fragment timing)))
      generate_content dd pdf_output open_rb subject link pressed :
  main get_transcript generate_content dd pdf_output open_rb subject link pressed
  = ([StTitle ([127891%N] ++ lit " CS Mastery Hub " ++ [8211%N]
               ++ lit " YouTube Video to Notes Converter");
      StSubheader
        (lit "Extract key learnings from YouTube lectures on DBMS, OS, OOPS, and CN!");
      StSelectbox (lit "Select Core CS Subject:") subjects;
      StTextInput (lit "Enter YouTube Video Link:")]
     ++ (if truthy link then [StImage (thumbnail_url link)] else [])
     ++ [StButton ([128214%N] ++ lit " Generate Detailed Notes")]
     ++ (if pressed
         then trace (on_generate get_transcript generate_content dd pdf_output open_rb subject link)
         else []),
     if pressed
     then outcome (on_generate get_transcript generate_content dd pdf_output open_rb subject link)
     else Ok tt).
Proof.
  unfold main, thumbnail_url, video_id_of.
  cbv beta iota zeta delta [bind emit ret trace outcome].
  destruct (truthy link), pressed; cbv beta iota zeta delta [bind emit ret];
    try reflexivity;
    destruct (on_generate get_transcript generate_content dd pdf_output open_rb subject link)
      as [tr [u|e]]; try destruct u; reflexivity.
Qed.

Lemma on_generate_no_widget timing
      (get_transcript : str -> result (list (fragment timing)))
      generate_content dd pdf_output open_rb subject link e :
  In e (trace (on_generate get_transcript generate_content dd pdf_output open_rb subject link)) ->
  is_widget e = false.
Proof.
  destruct (on_generate_cases get_transcript generate_content dd pdf_output open_rb subject link)
    as [H|[(t & x & _ & H)|[(t & rn & x & _ & H)|[(t & rn & rq & x & _ & H)
       |[(t & rn & rq & x & _ & _ & H)|(t & rn & rq & H)]]]]];
    rewrite H; cbn [trace fst In]; intros Hin;
    repeat (destruct Hin as [<-|Hin]; [reflexivity|]); contradiction.
Qed.

(** X8: the page contacts a service or the file system only when the button
    is pressed. Without the press every event of the run draws the form and
    nothing is raised; with the press the caption service is asked for the
    identifier taken from the link. *)
Theorem main_requests_only_on_press timing
        (get_transcript : str -> result (list (fragment timing)))
        generate_content dd pdf_output open_rb subject link pressed :
  let run := main get_transcript generate_content dd pdf_output open_rb subject link pressed in
  ((exists e, In e (trace run) /\ is_request e = true) <-> pressed = true) /\
  (pressed = true -> In (CaptionRequest (video_id_of link)) (trace run)) /\
  (pressed = false ->
     outcome run = Ok tt /\ forall e, In e (trace run) -> is_widget e = true).
Proof.
  cbv zeta. rewrite main_eq. cbn [trace outcome fst snd].
  assert (Hform : forall e,
    In e ([StTitle ([127891%N] ++ lit " CS Mastery Hub " ++ [8211%N]
                    ++ lit " YouTube Video to Notes Converter");
           StSubheader
             (lit "Extract key learnings from YouTube lectures on DBMS, OS, OOPS, and CN!");
           StSelectbox (lit "Select Core CS Subject:") subjects;
           StTextInput (lit "Enter YouTube Video Link:")]
          ++ (if truthy link then [StImage (thumbnail_url link)] else [])
          ++ [StButton ([128214%N] ++ lit " Generate Detailed Notes")]) ->
    is_widget e = true /\ is_request e = false).
  { intros e H. destruct (truthy link); cbn [In app] in H;
      repeat (destruct H as [<-|H]; [now split|]); contradiction. }
  assert (Hcap : In (CaptionRequest (video_id_of link))
            (trace (on_generate get_transcript generate_content dd pdf_output open_rb subject link))).
  { destruct (on_generate_cases get_transcript generate_content dd pdf_output open_rb subject link)
      as [H|[(t & x & _ & H)|[(t & rn & x & _ & H)|[(t & rn & rq & x & _ & H)
       |[(t & rn & rq & x & _ & _ & H)|(t & rn & rq & H)]]]]];
      rewrite H; now left. }
  destruct pressed.
  - split; [|split; [|discriminate]].
    + split; [reflexivity|]. intros _.
      exists (CaptionRequest (video_id_of link)). split; [|reflexivity].
      rewrite !app_assoc. apply in_or_app. right. exact Hcap.
    + intros _. rewrite !app_assoc. apply in_or_app. now right.
  - rewrite app_nil_r. split; [|split; [discriminate|]].
    + split; [|discriminate]. intros (e & Hin & Hr).
      apply Hform in Hin as [_ Hin]. now rewrite Hin in Hr.
    + intros _. split; [reflexivity|]. intros e Hin. now apply Hform in Hin.
Qed.

(** X9: the preview picture is shown if and only if the link field is not
    empty, whether or not the button is pressed, and its address is built
    from the identifier taken from the link. *)
Theorem main_thumbnail timing
        (get_transcript : str -> result (list (fragment timing)))
        generate_content dd pdf_output open_rb subject link pressed url :
  In (StImage url)
     (trace (main get_transcript generate_content dd pdf_output open_rb subject link pressed))
  <-> link <> [] /\ url = thumbnail_url link.
Proof.
  rewrite main_eq. cbn [trace fst]. split.
  - intros H. cbn [app In] in H.
    repeat (destruct H as [H|H]; [discriminate H|]).
    apply in_app_iff in H as [H|H].
    + destruct link; cbn [truthy] in H; [contradiction|].
      destruct H as [H|[]]. injection H as <-. split; [discriminate|reflexivity].
    + destruct H as [H|H]; [discriminate H|]. destruct pressed; [|contradiction].
      apply on_generate_no_widget in H. discriminate H.
  - intros [Hl ->]. destruct link; [contradiction|]. cbn [truthy app].
    do 4 right. left. reflexivity.
Qed.

Lemma main_thumbnail_witness :
  In (StImage (lit "http://img.youtube.com/vi/abc123/0.jpg"))
     (trace (main (fun _ : str => @Raise (list (fragment unit)) (Exception []))
               (fun _ _ => Ok []) ascii_digit output_ok open_ok (lit "Computer Networks (CN)")
               (lit "https://youtube.com/watch?v=abc123") false)).
Proof.
  apply (proj2 (@main_thumbnail unit
           (fun _ => Raise (Exception [])) (fun _ _ => Ok []) ascii_digit output_ok open_ok
           (lit "Computer Networks (CN)")
           (lit "https://youtube.com/watch?v=abc123") false
           (lit "http://img.youtube.com/vi/abc123/0.jpg"))).
  split; [discriminate|reflexivity].
Defined.

(** X10: a download button is shown only at the end of a run in which the
    button was pressed and nothing was raised; the file it offers is the
    one named after the subject, which was written earlier in that run, and
    its type is ["application/pdf"]. *)
Theorem download_button_after_write timing
        (get_transcript : str -> result (list (fragment timing)))
        generate_content dd pdf_output open_rb subject link pressed l d f m :
  let run := main get_transcript generate_content dd pdf_output open_rb subject link pressed in
  In (StDownloadButton l d f m) (trace run) ->
  pressed = true /\ outcome run = Ok tt /\
  d = f /\ f = subject ++ lit "_study_notes.pdf" /\ m = lit "application/pdf" /\
  exists doc before, 
    trace run = before ++ [FileWrite f doc; StDownloadButton l d f m].
Proof.
  cbv zeta. rewrite main_eq. cbn [trace outcome fst snd]. intros H.
  rewrite !app_assoc in H. apply in_app_iff in H as [H|H].
  { destruct (truthy link); absent H. }
  destruct pressed; [|contradiction].
  destruct (on_generate_cases get_transcript generate_content dd pdf_output open_rb subject link)
    as [E|[(t & x & _ & E)|[(t & rn & x & _ & E)|[(t & rn & rq & x & _ & E)
       |[(t & rn & rq & x & _ & _ & E)|(t & rn & rq & E)]]]]];
    rewrite E in *; cbn [trace outcome fst snd] in *; try (absent H).
  cbn [In] in H. repeat (destruct H as [H|H]; [discriminate H|]).
  destruct H as [H|[]]. injection H as <- <- <- <-.
  repeat (split; [reflexivity|]).
  exists (layout dd (clean_text rn) (clean_text rq) subject).
  match goal with
  | |- exists _, ?A ++ ?B ++ ?C ++ ?e1 :: ?e2 :: ?e3 :: ?e4 :: ?e5 :: ?e6 :: ?e7 :: ?e8 :: _ = _ =>
      exists (A ++ B ++ C ++ [e1; e2; e3; e4; e5; e6; e7; e8])
  end.
  now rewrite <- 3 app_assoc.
Qed.

Lemma main_requests_only_on_press_witness :
  outcome (main (fun _ : str => @Raise (list (fragment unit)) (Exception []))
             (fun _ _ => Ok []) ascii_digit output_ok open_ok (lit "Computer Networks (CN)")
             (lit "https://youtube.com/watch?v=abc123") false)
  = Ok tt.
Proof.
  apply (proj1 (proj2 (proj2 (@main_requests_only_on_press unit
           (fun _ => Raise (Exception [])) (fun _ _ => Ok []) ascii_digit output_ok open_ok
           (lit "Computer Networks (CN)")
           (lit "https://youtube.com/watch?v=abc123") false)) eq_refl)).
Defined.

Lemma download_button_after_write_witness :
  outcome (main (fun _ => Ok [Fragment (lit "Hello") 0%N 2%N; Fragment (lit "world") 2%N 3%N])
             (fun _ _ => Ok (lit "1. What is a process?")) ascii_digit output_ok open_ok
             (lit "Operating Systems (OS)")
             (lit "https://youtube.com/watch?v=abc123") true)
  = Ok tt.
Proof.
  refine (proj1 (proj2 (@download_button_after_write N
           (fun _ => Ok [Fragment (lit "Hello") 0%N 2%N; Fragment (lit "world") 2%N 3%N])
           (fun _ _ => Ok (lit "1. What is a process?")) ascii_digit output_ok open_ok
           (lit "Operating Systems (OS)")
           (lit "https://youtube.com/watch?v=abc123") true
           ([128229%N] ++ lit " Download Notes as PDF")
           (lit "Operating Systems (OS)_study_notes.pdf")
           (lit "Operating Systems (OS)_study_notes.pdf")
           (lit "application/pdf") _))).
  vm_compute. repeat (first [left; reflexivity | right]).
Defined.

(** ** More on the exporter *)

Lemma body_texts_app l1 l2 : body_texts (l1 ++ l2) = body_texts l1 ++ body_texts l2.
Proof.
  induction l1 as [|o l1 IH]; [reflexivity|]. cbn [app body_texts].
  destruct o; now rewrite IH.
Qed.

Lemma body_notes_lines f lines :
  body_texts (flat_map (notes_line_ops f) lines) = filter nonblank lines.
Proof.
  induction lines as [|l lines IH]; [reflexivity|].
  cbn [flat_map filter]. rewrite body_texts_app, IH.
  unfold notes_line_ops, nonblank. destruct (truthy (strip l)); [|reflexivity].
  now destruct (startswith (lit "-") l || startswith (lit "*") l
                || startswith [BULLET] l).
Qed.

Lemma body_questions_lines dd f lines :
  body_texts (flat_map (questions_line_ops dd f) lines) = filter nonblank lines.
Proof.
  induction lines as [|l lines IH]; [reflexivity|].
  cbn [flat_map filter]. rewrite body_texts_app, IH.
  unfold questions_line_ops, nonblank. destruct (truthy (strip l)); [|reflexivity].
  now destruct (re_match_numbered dd l).
Qed.

Lemma Forall_filter_nonblank (P : str -> Prop) lines :
  Forall P lines -> Forall (fun l => P l /\ nonblank l = true) (filter nonblank lines).
Proof.
  induction 1 as [|l lines Hl H IH]; [constructor|]. cbn [filter].
  destruct (nonblank l) eqn:E; [|exact IH]. now constructor.
Qed.

(** X11: every text that the exporter wraps into the page is one line of a
    body that is not blank: it has no newline in it and has a character
    that is not white space. The wrapped texts are the lines of the notes
    that are not blank, followed by those of the questions. *)
Theorem save_as_pdf_body_lines dd pdf_output notes questions subject :
  exists doc,
    trace (save_as_pdf dd pdf_output notes questions subject)
    = [FileWrite (subject ++ lit "_study_notes.pdf") doc] /\
    body_texts (ops doc)
    = filter nonblank (str_split [NL] notes)
      ++ filter nonblank (str_split [NL] questions) /\
    Forall (fun l => no_nl l = true /\ forallb is_space l = false)
           (body_texts (ops doc)).
Proof.
  rewrite save_as_pdf_eq. eexists. split; [reflexivity|]. unfold layout. cbn [ops].
  assert (E : forall l : str, (no_nl l = true /\ nonblank l = true) ->
                no_nl l = true /\ forallb is_space l = false).
  { intros l [H1 H2]. split; [exact H1|].
    destruct (forallb is_space l) eqn:F; [|reflexivity].
    apply nonblank_spec in F. now rewrite F in H2. }
  rewrite !body_texts_app, body_notes_lines, body_questions_lines.
  split; [reflexivity|]. cbn [body_texts app].
  apply Forall_app. split; (eapply Forall_impl; [exact E|]);
    apply Forall_filter_nonblank; unfold str_split;
    now apply split_go_nl_no_nl.
Qed.

Lemma digits_then_dot_spec dd s :
  digits_then_dot dd s = true <->
  exists ds rest, forallb dd ds = true /\ s = ds ++ DOT :: rest.
Proof.
  split.
  - induction s as [|c s IH]; [discriminate|]. cbn [digits_then_dot].
    intros H. apply orb_true_iff in H as [H|H].
    + apply N.eqb_eq in H; subst c. now exists [], s.
    + apply andb_true_iff in H as [Hc H].
      destruct (IH H) as (ds & rest & Hd & ->).
      exists (c :: ds), rest. cbn [forallb]. now rewrite Hc, Hd.
  - intros (ds & rest & Hd & ->). induction ds as [|d ds IH].
    + cbn [app digits_then_dot]. now rewrite N.eqb_refl.
    + cbn [forallb] in Hd. apply andb_true_iff in Hd as [H1 H2].
      cbn [app digits_then_dot]. rewrite H1, (IH H2). apply orb_true_r.
Qed.

Lemma has_dot_nonblank (line : str) : In DOT line -> nonblank line = true.
Proof.
  intros H. destruct (nonblank line) eqn:E; [reflexivity|].
  apply nonblank_spec in E. rewrite forallb_forall in E.
  apply E in H. discriminate H.
Qed.

(** X12: a line of the questions gets the vertical move of 3 before its
    text if and only if it starts with one or more digits followed by a
    full stop. Such a line is never dropped as blank: the exporter adds the
    move and then the line. *)
Theorem numbered_line_spacing dd pdf line :
  (re_match_numbered dd line = true <->
   exists ds rest, ds <> [] /\ forallb dd ds = true /\ line = ds ++ DOT :: rest) /\
  (re_match_numbered dd line = true ->
   ops (questions_line dd pdf line)
   = ops pdf ++ [Ln 3; MultiCell (cur_font pdf) 0 7 line]) /\
  (re_match_numbered dd line = false ->
   ~ In (Ln 3) (questions_line_ops dd (cur_font pdf) line)).
Proof.
  assert (Hspec : re_match_numbered dd line = true <->
    exists ds rest, ds <> [] /\ forallb dd ds = true /\ line = ds ++ DOT :: rest).
  { split.
    - destruct line as [|c s]; [discriminate|]. cbn [re_match_numbered].
      intros H. apply andb_true_iff in H as [Hc H].
      apply digits_then_dot_spec in H as (ds & rest & Hd & ->).
      exists (c :: ds), rest. cbn [forallb]. rewrite Hc, Hd.
      repeat split. discriminate.
    - intros (ds & rest & Hne & Hd & ->). destruct ds as [|d ds]; [contradiction|].
      cbn [forallb] in Hd. apply andb_true_iff in Hd as [H1 H2].
      cbn [app re_match_numbered]. rewrite H1. cbn [andb].
      apply digits_then_dot_spec. now exists ds, rest. }
  split; [exact Hspec|]. split.
  - intros H. rewrite questions_line_eq. cbn [ops]. unfold questions_line_ops.
    rewrite H. apply Hspec in H as (ds & rest & _ & _ & ->).
    assert (N : nonblank (ds ++ DOT :: rest) = true).
    { apply has_dot_nonblank, in_or_app. right. now left. }
    unfold nonblank in N. now rewrite N.
  - intros H Hin. unfold questions_line_ops in Hin. rewrite H in Hin.
    destruct (truthy (strip line)); cbn [app In] in Hin; [|contradiction].
    destruct Hin as [Hin|[]]. discriminate Hin.
Qed.

Lemma numbered_line_spacing_witness :
  ops (questions_line ascii_digit (MkFPDF None (regular 12) [])
         (lit "12. What is a semaphore?"))
  = [Ln 3; MultiCell (regular 12) 0 7 (lit "12. What is a semaphore?")].
Proof.
  apply (proj1 (proj2 (numbered_line_spacing ascii_digit
           (MkFPDF None (regular 12) []) (lit "12. What is a semaphore?")))).
  reflexivity.
Defined.

(** X13: the name of the file that the exporter asks [pdf.output] to write
    depends on the subject alone, and two subjects that differ give names
    that differ: two calls of the exporter ask for the same file if and only
    if they are for the same subject. A name that the exporter returns is
    the name it asked for. *)
Theorem save_as_pdf_name_injective dd pdf_output notes questions subject
        dd' pdf_output' notes' questions' subject' name doc name' doc' :
  In (FileWrite name doc)
     (trace (save_as_pdf dd pdf_output notes questions subject)) ->
  In (FileWrite name' doc')
     (trace (save_as_pdf dd' pdf_output' notes' questions' subject')) ->
  (name = name' <-> subject = subject') /\
  (forall r, outcome (save_as_pdf dd pdf_output notes questions subject) = Ok r ->
             r = name).
Proof.
  rewrite !save_as_pdf_eq. cbn [trace outcome fst snd].
  intros [H|[]] [H'|[]]. injection H as <- _. injection H' as <- _. split.
  - split; [apply app_inv_tail|now intros ->].
  - intros r Hr.
    destruct (pdf_output (subject ++ lit "_study_notes.pdf")
                (layout dd notes questions subject)); [|discriminate Hr].
    now injection Hr as <-.
Qed.

Lemma save_as_pdf_name_injective_witness :
  lit "DBMS_study_notes.pdf" = lit "OS_study_notes.pdf" <-> lit "DBMS" = lit "OS".
Proof.
  refine (proj1 (@save_as_pdf_name_injective
            ascii_digit strict_output (lit "n") (lit "1. q") (lit "DBMS")
            ascii_digit output_ok (lit "m") (lit "2. r") (lit "OS")
            (lit "DBMS_study_notes.pdf") (layout ascii_digit (lit "n") (lit "1. q") (lit "DBMS"))
            (lit "OS_study_notes.pdf") (layout ascii_digit (lit "m") (lit "2. r") (lit "OS"))
            _ _)); left; reflexivity.
Defined.

(** ** The normaliser and the exporter together *)

Lemma split_lines_all_ascii s :
  all_ascii s = true -> Forall (fun l => all_ascii l = true) (str_split [NL] s).
Proof. intros H. unfold str_split. now apply split_go_nl_all_ascii. Qed.

Lemma subjects_all_ascii subject : In subject subjects -> all_ascii subject = true.
Proof.
  intros H. unfold subjects in H. cbn [In] in H.
  repeat (destruct H as [<-|H]; [reflexivity|]). contradiction.
Qed.

Lemma Forall_printed_lines f lines :
  Forall (fun l => all_ascii l = true) lines ->
  Forall (fun p => all_ascii (printed_str p) = true)
         (map (fun l => Printed f l false) (filter nonblank lines)).
Proof.
  induction 1 as [|l lines Hl H IH]; [constructor|]. cbn [filter].
  destruct (nonblank l); [|exact IH]. cbn [map]. now constructor.
Qed.

(** X14: in a run of the page for one of the four subjects, every text of
    the document that is written has only characters in 0..127, and so has
    the name of the file: the notes and the questions reach the exporter
    normalised. *)
Theorem exported_text_seven_bit timing
        (get_transcript : str -> result (list (fragment timing)))
        generate_content dd pdf_output open_rb subject link pressed name doc :
  In subject subjects ->
  In (FileWrite name doc)
     (trace (main get_transcript generate_content dd pdf_output open_rb subject link pressed)) ->
  all_ascii name = true /\
  Forall (fun p => all_ascii (printed_str p) = true) (printed_text (ops doc)).
Proof.
  intros Hsub H. apply subjects_all_ascii in Hsub.
  rewrite main_eq in H. cbn [trace fst] in H.
  rewrite !app_assoc in H. apply in_app_iff in H as [H|H].
  { destruct (truthy link); absent H. }
  destruct pressed; [|contradiction].
  assert (Hdoc : name = subject ++ lit "_study_notes.pdf" /\
                 exists rn rq, doc = layout dd (clean_text rn) (clean_text rq) subject).
  { destruct (on_generate_cases get_transcript generate_content dd pdf_output
                open_rb subject link)
      as [E|[(t & x & _ & E)|[(t & rn & x & _ & E)|[(t & rn & rq & x & _ & E)
         |[(t & rn & rq & x & _ & _ & E)|(t & rn & rq & E)]]]]];
      rewrite E in H; cbn [trace fst] in H; try (absent H);
      cbn [In] in H; repeat (destruct H as [H|H]; [discriminate H|]);
      (destruct H as [H|H]; [|absent H]); injection H as <- <-;
      (split; [reflexivity|now exists rn, rq]). }
  destruct Hdoc as [-> (rn & rq & ->)]. rewrite layout_printed.
  unfold all_ascii in *. split; [now rewrite forallb_app, Hsub|].
  apply Forall_app. split.
  - repeat constructor. cbn [printed_str]. now rewrite forallb_app, Hsub.
  - apply Forall_app. split.
    + apply Forall_printed_lines, split_lines_all_ascii, clean_text_all_ascii.
    + apply Forall_app. split; [now repeat constructor|].
      apply Forall_printed_lines, split_lines_all_ascii, clean_text_all_ascii.
Qed.

Lemma exported_text_seven_bit_witness :
  all_ascii (lit "Operating Systems (OS)_study_notes.pdf") = true.
Proof.
  refine (proj1 (@exported_text_seven_bit N
           (fun _ => Ok [Fragment (lit "Hello") 0%N 2%N; Fragment (lit "world") 2%N 3%N])
           (fun _ _ => Ok ([8226%N] ++ lit " caf" ++ [233%N])) ascii_digit output_ok open_ok
           (lit "Operating Systems (OS)")
           (lit "https://youtube.com/watch?v=abc123") true
           (lit "Operating Systems (OS)_study_notes.pdf")
           (MkFPDF (Some (true, 15%N)) (regular 12)
              [AddPage;
               Cell (bold 16) 200 10 (lit "Study Notes on Operating Systems (OS)")
                 true (lit "C");
               Ln 10;
               Cell (bold 14) 200 10 (lit "Detailed Notes") true [];
               Ln 5;
               MultiCell (regular 12) 0 7 (lit " caf");
               Ln 10;
               Cell (bold 14) 200 10 (lit "Placement Aptitude Questions") true [];
               Ln 5;
               MultiCell (regular 12) 0 7 (lit " caf")])
           _ _)).
  - right. left. reflexivity.
  - vm_compute. repeat (first [left; reflexivity | right]).
Defined.

(** X15: no line of a normalised text starts with the bullet character
    U+2022, so for the notes that the page hands to the exporter the third
    test of line 91 never holds: only a hyphen or an asterisk at the start
    of a line gives the indent. *)
Theorem normalised_lines_no_bullet f response line :
  In line (str_split [NL] (clean_text response)) ->
  startswith [BULLET] line = false /\
  notes_line_ops f line
  = if nonblank line then
      (if startswith (lit "-") line || startswith (lit "*") line
       then [Cell f 10 0 [] false []] else [])
      ++ [MultiCell f 0 7 line]
    else [].
Proof.
  intros H.
  pose proof (split_lines_all_ascii _ (clean_text_all_ascii response)) as Ha.
  rewrite Forall_forall in Ha. apply Ha in H.
  assert (B : startswith [BULLET] line = false).
  { destruct line as [|c line]; [reflexivity|]. cbn [startswith].
    unfold all_ascii in H. cbn [forallb] in H.
    apply andb_true_iff in H as [Hc _]. apply N.leb_le in Hc.
    rewrite andb_true_r. apply N.eqb_neq. unfold BULLET. lia. }
  split; [exact B|]. unfold notes_line_ops, nonblank.
  now rewrite B, orb_false_r.
Qed.

Lemma normalised_lines_no_bullet_witness :
  startswith [BULLET] (lit " item") = false.
Proof.
  refine (proj1 (normalised_lines_no_bullet None
            (lit "a" ++ [NL; BULLET] ++ lit " item") (lit " item") _)).
  vm_compute. right. left. reflexivity.
Defined.

(** ** What leaves the page *)

(** X16: an exception that leaves the page was raised by the language-model
    service, by [pdf.output] or by [open], and the run ends at that call.
    When a run ends with the exception [e], the button was pressed, and
    either the last event of the run is a request to the language model
    for which the service raised [e], or the last event is the call of
    [pdf.output] for the file of the subject and [e] was raised by that
    call or, after it returned, by [open] on that file. A failure of the
    caption service never leaves the page. *)
Theorem main_exception_origin timing
        (get_transcript : str -> result (list (fragment timing)))
        generate_content dd pdf_output open_rb subject link pressed e :
  let run :=
    main get_transcript generate_content dd pdf_output open_rb subject link pressed in
  outcome run = Raise e ->
  pressed = true /\
  exists before,
    (exists prompt,
       generate_content (lit "gemini-pro") prompt = Raise e /\
       trace run = before ++ [LLMRequest (lit "gemini-pro") prompt])
    \/
    (exists doc,
       trace run = before ++ [FileWrite (subject ++ lit "_study_notes.pdf") doc] /\
       (pdf_output (subject ++ lit "_study_notes.pdf") doc = Raise e \/
        pdf_output (subject ++ lit "_study_notes.pdf") doc = Ok tt /\
        open_rb (subject ++ lit "_study_notes.pdf") = Raise e)).
Proof.
  cbv zeta. rewrite main_eq. cbn [trace outcome fst snd]. intros H.
  destruct pressed; [|discriminate H]. split; [reflexivity|].
  destruct (on_generate_cases get_transcript generate_content dd pdf_output
              open_rb subject link)
    as [E|[(t & x & Hg & E)|[(t & rn & x & Hg & E)|[(t & rn & rq & x & Ho & E)
       |[(t & rn & rq & x & Ho & Hp & E)|(t & rn & rq & E)]]]]];
    rewrite E in *; cbn [trace outcome fst snd] in *; try discriminate H;
    injection H as ->;
    match goal with
    | |- exists _, _ \/ (exists _, ?A ++ ?B ++ ?C ++ [?e1; ?e2; _] = _ /\ _) =>
        exists (A ++ B ++ C ++ [e1; e2]); left; eexists
    | |- exists _, _ \/ (exists _, ?A ++ ?B ++ ?C ++ [?e1; ?e2; ?e3; ?e4; ?e5; _] = _ /\ _) =>
        exists (A ++ B ++ C ++ [e1; e2; e3; e4; e5]); left; eexists
    | |- exists _, _ \/ (exists _, ?A ++ ?B ++ ?C
                                   ++ [?e1; ?e2; ?e3; ?e4; ?e5; ?e6; ?e7; ?e8; _] = _ /\ _) =>
        exists (A ++ B ++ C ++ [e1; e2; e3; e4; e5; e6; e7; e8]); right; eexists
    end;
    (split; [first [exact Hg | now rewrite <- 3 app_assoc]|]);
    first [now rewrite <- 3 app_assoc | left; exact Ho | right; now split].
Qed.

Lemma main_exception_origin_witness :
  exists before doc,
    trace (main (fun _ => Ok [Fragment (lit "Hello") 0%N 2%N])
             (fun _ _ => Ok ([BULLET] ++ lit " notes")) ascii_digit
             (fun _ _ => Raise (Exception (lit "UnicodeEncodeError"))) open_ok
             (lit "Computer Networks (CN)")
             (lit "https://youtube.com/watch?v=abc123") true)
    = before ++ [FileWrite (lit "Computer Networks (CN)" ++ lit "_study_notes.pdf") doc].
Proof.
  pose proof (@main_exception_origin N (fun _ => Ok [Fragment (lit "Hello") 0%N 2%N])
                (fun _ _ => Ok ([BULLET] ++ lit " notes")) ascii_digit
                (fun _ _ => Raise (Exception (lit "UnicodeEncodeError"))) open_ok
                (lit "Computer Networks (CN)")
                (lit "https://youtube.com/watch?v=abc123") true
                (Exception (lit "UnicodeEncodeError"))) as T.
  cbv zeta in T.
  destruct T as (_ & before & [(prompt & Hg & _)|(doc & Ht & _)]);
    [vm_compute; reflexivity|discriminate Hg|].
  exists before, doc. exact Ht.
Defined.

(** X17: a run of the page makes one request to the caption service when
    the button is pressed and none otherwise, at most two requests to the
    language model and at most one write of a file. *)
Theorem main_request_counts timing
        (get_transcript : str -> result (list (fragment timing)))
        generate_content dd pdf_output open_rb subject link pressed :
  let run := main get_transcript generate_content dd pdf_output open_rb subject link pressed in
  length (filter is_caption_request (trace run)) = (if pressed then 1 else 0) /\
  length (filter is_llm_request (trace run)) <= 2 /\
  length (filter is_file_write (trace run)) <= 1.
Proof.
  cbv zeta. rewrite main_eq. cbn [trace fst].
  rewrite !filter_app, !length_app.
  assert (Hf : forall p : event -> bool,
            (forall u, p (StImage u) = false) ->
            filter p (if truthy link then [StImage (thumbnail_url link)] else []) = []).
  { intros p Hp. destruct (truthy link); [|reflexivity]. cbn. now rewrite Hp. }
  rewrite !Hf by reflexivity. cbn [filter is_caption_request is_llm_request
                                  is_file_write length Nat.add].
  destruct pressed; [|cbn; lia].
  destruct (on_generate_cases get_transcript generate_content dd pdf_output open_rb subject link)
    as [E|[(t & x & _ & E)|[(t & rn & x & _ & E)|[(t & rn & rq & x & _ & E)
       |[(t & rn & rq & x & _ & _ & E)|(t & rn & rq & E)]]]]];
    rewrite E; cbn [trace fst filter is_caption_request is_llm_request
                      is_file_write length]; lia.
Qed.
